(** * Verification of the weather agent's intent routing and protocol bridge

    Shallow embedding of [agent_executor.py], [servicenow_handler.py], the
    parts of [weather_agent.py] that the dispatcher relies on, and the
    API-key check of [main.py].

    Python [str] values are modelled as [list ascii] holding their UTF-8
    encoding, byte by byte (Rocq's string literals are UTF-8, so [py] of a
    literal gives exactly that).  A lone surrogate, which [json.loads] makes of
    an escape such as [\ud800], is held as the three bytes 0xED 0xA0-0xBF
    0x80-0xBF that the [surrogatepass] error handler gives it.  The character
    predicates below follow Python's behaviour on the ASCII range (code points
    0-127).  Writing with [print] is taken to succeed.  Regular expressions are run by a small backtracking matcher in
    the list-of-successes style: [mr] returns every way a pattern can match at
    a position, in the order in which CPython's [re] engine tries them, so the
    head of that list is the match [re.search] reports. *)

From Stdlib Require Import Ascii String List ZArith Bool Lia DecimalString.
Set Warnings "-register-all".
Import ListNotations.

(* ------------------------------------------------------------------ *)
(** ** Python strings *)

Module PyStr.

Definition str := list ascii.

(** A Rocq string literal as a Python [str]. *)
Definition py (s : string) : str := list_ascii_of_string s.

Definition code (c : ascii) : nat := nat_of_ascii c.

Definition in_range (lo hi : nat) (c : ascii) : bool :=
  (lo <=? code c) && (code c <=? hi).

Definition is_upper (c : ascii) : bool := in_range 65 90 c.
Definition is_lower (c : ascii) : bool := in_range 97 122 c.
Definition is_alpha (c : ascii) : bool := is_upper c || is_lower c.
Definition is_digit (c : ascii) : bool := in_range 48 57 c.

(** [str.isspace] and regex [\s] on ASCII: tab, LF, VT, FF, CR, the four
    separators 0x1c-0x1f, and space. *)
Definition is_space (c : ascii) : bool :=
  in_range 9 13 c || in_range 28 32 c.

(** Regex [\w] on ASCII (used by [\b]). *)
Definition is_word (c : ascii) : bool :=
  is_alpha c || is_digit c || (code c =? 95).

Definition lower_c (c : ascii) : ascii :=
  if is_upper c then ascii_of_nat (code c + 32) else c.
Definition upper_c (c : ascii) : ascii :=
  if is_lower c then ascii_of_nat (code c - 32) else c.

(** [str.lower()] *)
Definition lower (s : str) : str := map lower_c s.

Fixpoint str_eqb (a b : str) : bool :=
  match a, b with
  | [], [] => true
  | x :: a', y :: b' => Ascii.eqb x y && str_eqb a' b'
  | _, _ => false
  end.

Fixpoint prefixb (p s : str) : bool :=
  match p, s with
  | [], _ => true
  | x :: p', y :: s' => Ascii.eqb x y && prefixb p' s'
  | _ :: _, [] => false
  end.

(** [needle in hay] *)
Fixpoint contains (needle hay : str) : bool :=
  prefixb needle hay ||
  match hay with
  | [] => false
  | _ :: hay' => contains needle hay'
  end.

Fixpoint lstrip (s : str) : str :=
  match s with
  | c :: s' => if is_space c then lstrip s' else s
  | [] => []
  end.

(** [str.strip()] *)
Definition strip (s : str) : str := rev (lstrip (rev (lstrip s))).

(** [str.split()] with no separator: maximal runs of non-whitespace. *)
Fixpoint split_aux (cur : str) (s : str) : list str :=
  match s with
  | [] => match cur with [] => [] | _ => [rev cur] end
  | c :: s' =>
      if is_space c
      then match cur with
           | [] => split_aux [] s'
           | _ => rev cur :: split_aux [] s'
           end
      else split_aux (c :: cur) s'
  end.
Definition split (s : str) : list str := split_aux [] s.

(** [int(s)] for a string of ASCII digits. *)
Definition int_of_digits (s : str) : Z :=
  fold_left (fun acc c => acc * 10 + Z.of_nat (code c - 48))%Z s 0%Z.

(** Python truthiness of a [str]. *)
Definition truthy (s : str) : bool := negb (str_eqb s []).

(** ASCII bytes, and the continuation bytes 0x80-0xBF that start no code
    point. *)
Definition is_ascii (c : ascii) : bool := code c <? 128.
Definition is_cont (c : ascii) : bool := in_range 128 191 c.

(** A lone surrogate (U+D800-U+DFFF) starts at the bytes [a b]: the lead
    byte 0xED followed by a byte 0xA0-0xBF. *)
Definition surrogate_lead (a b : ascii) : bool := (code a =? 237) && in_range 160 191 b.

(** [s] holds a lone surrogate, so [s.encode("utf-8")] raises. *)
Fixpoint has_surrogate (s : str) : bool :=
  match s with
  | a :: ((b :: _) as s') => surrogate_lead a b || has_surrogate s'
  | _ => false
  end.

End PyStr.
Import PyStr.

(* ------------------------------------------------------------------ *)
(** ** A backtracking regular-expression matcher *)

Module Re.

(** The fragment of Python's regex syntax the patterns of
    [agent_executor.py] use.  Every repetition in those patterns is either
    a repetition of a single character class ([RRep]) or an optional
    group ([ROpt], greedy [?]); fixed counts such as [{2}] are written out. *)
Inductive regex : Type :=
| RClass (p : ascii -> bool)                  (* one character of a class *)
| RSeq (r1 r2 : regex)
| RAlt (r1 r2 : regex)                        (* ordered alternation [|] *)
| ROpt (r : regex)                            (* greedy [(?:r)?] *)
| RRep (p : ascii -> bool) (min : nat) (greedy : bool)
                                              (* [p*], [p+], [p*?], [p+?] *)
| RGroup (n : nat) (r : regex)                (* capturing group [n] *)
| REnd                                        (* [$] without MULTILINE *)
| RWordB                                      (* [\b] *)
| REps.

Record mstate : Type := MS {
  ms_before : str;                      (* consumed text, reversed *)
  ms_rest : str;                        (* text still to match *)
  ms_caps : list (nat * str)            (* captured groups, latest first *)
}.

(** Character test, with re.IGNORECASE folding both ways on ASCII. *)
Definition cmatch (icase : bool) (p : ascii -> bool) (c : ascii) : bool :=
  p c || (icase && (p (lower_c c) || p (upper_c c))).

Fixpoint lead (icase : bool) (p : ascii -> bool) (l : str) : nat :=
  match l with
  | c :: t => if cmatch icase p c then S (lead icase p t) else 0
  | [] => 0
  end.

Definition advance (s : mstate) (n : nat) : mstate :=
  MS (rev (firstn n (ms_rest s)) ++ ms_before s) (skipn n (ms_rest s))
     (ms_caps s).

(** Repetition counts in the order the engine tries them. *)
Definition counts (greedy : bool) (min k : nat) : list nat :=
  if k <? min then []
  else if greedy then rev (seq min (S (k - min))) else seq min (S (k - min)).

Definition set_cap (n : nat) (t : str) (s : mstate) : mstate :=
  MS (ms_before s) (ms_rest s) ((n, t) :: ms_caps s).

Fixpoint get_cap (n : nat) (caps : list (nat * str)) : option str :=
  match caps with
  | [] => None
  | (m, t) :: caps' => if Nat.eqb n m then Some t else get_cap n caps'
  end.

Definition word_at (l : str) : bool :=
  match l with c :: _ => is_word c | [] => false end.

Fixpoint mr (icase : bool) (r : regex) (s : mstate) : list mstate :=
  match r with
  | RClass p =>
      match ms_rest s with
      | c :: _ => if cmatch icase p c then [advance s 1] else []
      | [] => []
      end
  | RSeq r1 r2 => flat_map (mr icase r2) (mr icase r1 s)
  | RAlt r1 r2 => mr icase r1 s ++ mr icase r2 s
  | ROpt r1 => mr icase r1 s ++ [s]
  | RRep p m g => map (advance s) (counts g m (lead icase p (ms_rest s)))
  | RGroup n r1 =>
      map (fun s' => set_cap n
             (firstn (length (ms_rest s) - length (ms_rest s')) (ms_rest s)) s')
          (mr icase r1 s)
  | REnd =>
      match ms_rest s with
      | [] => [s]
      | [c] => if Ascii.eqb c (ascii_of_nat 10) then [s] else []
      | _ => []
      end
  | RWordB => if xorb (word_at (ms_before s)) (word_at (ms_rest s)) then [s] else []
  | REps => [s]
  end.

(** [re.search]: the first position, left to right, at which the pattern
    matches, and the first match there. *)
Fixpoint search_at (icase : bool) (r : regex) (before rest : str)
  : option mstate :=
  match mr icase r (MS before rest []) with
  | s' :: _ => Some s'
  | [] =>
      match rest with
      | [] => None
      | c :: rest' => search_at icase r (c :: before) rest'
      end
  end.

Definition search (icase : bool) (r : regex) (s : str) : option mstate :=
  search_at icase r [] s.

(** [re.findall] for a pattern with one group that never matches the empty
    string: the texts of group 1 of successive non-overlapping matches. *)
Fixpoint findall_aux (fuel : nat) (icase : bool) (r : regex) (before rest : str)
  : list str :=
  match fuel with
  | 0 => []
  | S fuel' =>
      match search_at icase r before rest with
      | None => []
      | Some s' =>
          match get_cap 1 (ms_caps s') with Some t => t | None => [] end
          :: findall_aux fuel' icase r (ms_before s') (ms_rest s')
      end
  end.

Definition findall (icase : bool) (r : regex) (s : str) : list str :=
  findall_aux (S (length s)) icase r [] s.

(** Pattern-building helpers. *)
Definition chr (c : ascii) : regex := RClass (Ascii.eqb c).

Fixpoint lit_l (l : str) : regex :=
  match l with
  | [] => REps
  | [c] => chr c
  | c :: l' => RSeq (chr c) (lit_l l')
  end.
Definition lit (s : string) : regex := lit_l (py s).

Fixpoint alts (rs : list regex) : regex :=
  match rs with
  | [] => REps
  | [r] => r
  | r :: rs' => RAlt r (alts rs')
  end.

Fixpoint seqs (rs : list regex) : regex :=
  match rs with
  | [] => REps
  | [r] => r
  | r :: rs' => RSeq r (seqs rs')
  end.

Definition alpha_sp (c : ascii) : bool := is_alpha c || is_space c.

End Re.
Import Re.

(* ------------------------------------------------------------------ *)
(** ** [WeatherAgentExecutor._extract_city] and [_parse_intent] *)

Module Intent.

Definition sp := is_space.

(** [(?:\s*,\s*([A-Z]{2}))?] *)
Definition country_suffix : regex :=
  ROpt (seqs [RRep sp 0 true; chr ","; RRep sp 0 true;
              RGroup 2 (RSeq (RClass is_upper) (RClass is_upper))]).

Definition in_for_at : regex := alts [lit "in"; lit "for"; lit "at"].

(** [(?:in|for|at)\s+([A-Za-z\s]+?)(?:\s*,\s*([A-Z]{2}))?\s*(?:\?|$|today|tomorrow|this|next)] *)
Definition city_pat1 : regex :=
  seqs [in_for_at; RRep sp 1 true; RGroup 1 (RRep alpha_sp 1 false);
        country_suffix; RRep sp 0 true;
        alts [chr "?"; REnd; lit "today"; lit "tomorrow"; lit "this"; lit "next"]].

(** [(?:weather|forecast|temperature|air quality)\s+(?:in|for|at)?\s*([A-Za-z\s]+?)(?:\s*,\s*([A-Z]{2}))?\s*(?:\?|$)] *)
Definition city_pat2 : regex :=
  seqs [alts [lit "weather"; lit "forecast"; lit "temperature"; lit "air quality"];
        RRep sp 1 true; ROpt in_for_at; RRep sp 0 true;
        RGroup 1 (RRep alpha_sp 1 false); country_suffix; RRep sp 0 true;
        alts [chr "?"; REnd]].

(** [([A-Za-z]+(?:\s+[A-Za-z]+)?)\s+<kw>] *)
Definition words_before (kw : string) : regex :=
  seqs [RGroup 1 (RSeq (RRep is_alpha 1 true)
                       (ROpt (RSeq (RRep sp 1 true) (RRep is_alpha 1 true))));
        RRep sp 1 true; lit kw].

Definition city_pat3 : regex := words_before "weather".
Definition city_pat4 : regex := words_before "forecast".

(** The patterns with their number of groups ([len(match.groups())]). *)
Definition city_patterns : list (regex * nat) :=
  [(city_pat1, 2); (city_pat2, 2); (city_pat3, 1); (city_pat4, 1)].

(** [\b([A-Z][a-z]+(?:\s+[A-Z][a-z]+)?)\b], searched without IGNORECASE. *)
Definition cap_words_pat : regex :=
  seqs [RWordB;
        RGroup 1 (seqs [RClass is_upper; RRep is_lower 1 true;
                        ROpt (seqs [RRep sp 1 true; RClass is_upper;
                                    RRep is_lower 1 true])]);
        RWordB].

Definition skip_words : list str :=
  map py ["weather"; "forecast"; "temperature"; "humidity"; "wind"; "rain";
          "snow"; "sunny"; "cloudy"; "air"; "quality"; "today"; "tomorrow";
          "what"; "how"; "is"; "the"; "in"; "for"; "at"; "get"; "show"; "tell";
          "me"; "current"; "now"; "compare"; "vs"; "and"; "between"]%string.

Definition group_text (n : nat) (m : mstate) : str :=
  match get_cap n (ms_caps m) with Some t => t | None => [] end.

(** The body of the [for pattern in patterns] loop: [Some r] when a pattern
    matched and the function returned [r].  Group 1 lies outside every
    optional part of these patterns, so it is always set in a match. *)
Fixpoint city_by_patterns (ps : list (regex * nat)) (query : str) : option str :=
  match ps with
  | [] => None
  | (pat, ngroups) :: ps' =>
      match search true pat query with
      | Some m =>
          let city := strip (group_text 1 m) in
          let country :=
            if 1 <? ngroups then get_cap 2 (ms_caps m) else None in
          match country with
          | Some cc => if truthy cc then Some (city ++ py "," ++ cc) else Some city
          | None => Some city
          end
      | None => city_by_patterns ps' query
      end
  end.

Fixpoint first_not_skipped (ws : list str) : option str :=
  match ws with
  | [] => None
  | w :: ws' =>
      if existsb (str_eqb (lower w)) skip_words then first_not_skipped ws'
      else Some w
  end.

(** [_extract_city] *)
Definition extract_city (query : str) : option str :=
  match city_by_patterns city_patterns query with
  | Some c => Some c
  | None => first_not_skipped (findall false cap_words_pat query)
  end.

(** Python truthiness of [str | None]. *)
Definition city_truthy (c : option str) : option str :=
  match c with Some s => if truthy s then Some s else None | None => None end.

(** A parameter value of the intent's dict. *)
Inductive arg : Type := AStr (s : str) | AInt (z : Z).

(** [(skill_name, parameters)] *)
Definition intent : Type := (str * list (str * arg))%type.

Definition compare_in : regex := alts [lit "and"; lit "vs"; lit "versus"; lit "with"].

(** [compare\s+([A-Za-z\s]+?)\s+(?:and|vs|versus|with)\s+([A-Za-z\s]+)] *)
Definition compare_pat1 : regex :=
  seqs [lit "compare"; RRep sp 1 true; RGroup 1 (RRep alpha_sp 1 false);
        RRep sp 1 true; compare_in; RRep sp 1 true;
        RGroup 2 (RRep alpha_sp 1 true)].

(** [([A-Za-z\s]+?)\s+(?:vs|versus)\s+([A-Za-z\s]+)] *)
Definition compare_pat2 : regex :=
  seqs [RGroup 1 (RRep alpha_sp 1 false); RRep sp 1 true;
        alts [lit "vs"; lit "versus"]; RRep sp 1 true;
        RGroup 2 (RRep alpha_sp 1 true)].

(** [weather\s+(?:in\s+)?([A-Za-z\s]+?)\s+(?:and|vs|or)\s+([A-Za-z\s]+)] *)
Definition compare_pat3 : regex :=
  seqs [lit "weather"; RRep sp 1 true; ROpt (RSeq (lit "in") (RRep sp 1 true));
        RGroup 1 (RRep alpha_sp 1 false); RRep sp 1 true;
        alts [lit "and"; lit "vs"; lit "or"]; RRep sp 1 true;
        RGroup 2 (RRep alpha_sp 1 true)].

Definition compare_patterns : list regex := [compare_pat1; compare_pat2; compare_pat3].

(** The first compare pattern that matches, and its match. *)
Fixpoint first_compare (ps : list regex) (query : str) : option mstate :=
  match ps with
  | [] => None
  | p :: ps' =>
      match search true p query with
      | Some m => Some m
      | None => first_compare ps' query
      end
  end.

(** [(\d+)\s*day], searched in [query_lower] without IGNORECASE. *)
Definition days_pat : regex :=
  seqs [RGroup 1 (RRep is_digit 1 true); RRep sp 0 true; lit "day"].

Definition any_in (ws : list string) (s : str) : bool :=
  existsb (fun w => contains (py w) s) ws.

Definition forecast_words := ["forecast"; "next few days"; "this week"; "tomorrow"]%string.
Definition air_words := ["air quality"; "aqi"; "pollution"; "smog"]%string.
Definition recommend_words :=
  ["what to wear"; "should i"; "recommend"; "suggestion"; "umbrella"; "jacket"]%string.
Definition summary_words :=
  ["summary"; "complete"; "full report"; "everything"; "all info"]%string.
Definition current_words :=
  ["weather"; "temperature"; "temp"; "hot"; "cold"; "rain"; "sunny"; "cloudy"; "humid"]%string.

(** One [if any(...): city = ...; if city: return ...] block: a keyword
    group, the skill it leads to, and how the parameters are built. *)
Definition keyword_rule (words : list string) (query query_lower : str)
           (k : str -> intent) (rest : intent) : intent :=
  if any_in words query_lower then
    match city_truthy (extract_city query) with
    | Some c => k c
    | None => rest
    end
  else rest.

(** [_parse_intent] *)
Definition parse_intent (query : str) : intent :=
  let query_lower := strip (lower query) in
  match first_compare compare_patterns query with
  | Some m =>
      (py "compare", [(py "city1", AStr (strip (group_text 1 m)));
                      (py "city2", AStr (strip (group_text 2 m)))])
  | None =>
  let days :=
    match search false days_pat query_lower with
    | Some m => int_of_digits (group_text 1 m)
    | None => 3%Z
    end in
  keyword_rule forecast_words query query_lower
    (fun c => (py "forecast", [(py "city", AStr c); (py "days", AInt days)])) (
  keyword_rule air_words query query_lower
    (fun c => (py "air_quality", [(py "city", AStr c)])) (
  keyword_rule recommend_words query query_lower
    (fun c => (py "recommendations", [(py "city", AStr c)])) (
  keyword_rule summary_words query query_lower
    (fun c => (py "summary", [(py "city", AStr c)])) (
  keyword_rule current_words query query_lower
    (fun c => (py "current", [(py "city", AStr c)])) (
  match city_truthy (extract_city query) with
  | Some c =>
      if length (split query) <=? 3 then (py "current", [(py "city", AStr c)])
      else (py "query", [(py "question", AStr query)])
  | None => (py "query", [(py "question", AStr query)])
  end)))))
  end.

End Intent.
Import Intent.

(* ------------------------------------------------------------------ *)
(** ** Python values, exceptions and the effect monad *)

Module Py.

(** A Python exception: its class name and [str(e)]. *)
Record exc : Type := Exc { exc_class : str; exc_msg : str }.

Inductive outcome (A : Type) : Type :=
| Ret (a : A)
| Raise (e : exc).
Arguments Ret {A} a.
Arguments Raise {A} e.

(** Values read out of a loosely typed object.  Objects are plain data: an
    attribute is present with a value or absent. *)
Inductive pyval : Type :=
| VNone
| VBool (b : bool)
| VInt (z : Z)
| VStr (s : str)
| VList (l : list pyval)
| VObj (attrs : list (str * pyval)).

Definition vtruthy (v : pyval) : bool :=
  match v with
  | VNone => false
  | VBool b => b
  | VInt z => negb (Z.eqb z 0)
  | VStr s => truthy s
  | VList l => match l with [] => false | _ => true end
  | VObj _ => true
  end.

Fixpoint assoc {A} (k : str) (l : list (str * A)) : option A :=
  match l with
  | [] => None
  | (k', v) :: l' => if str_eqb k k' then Some v else assoc k l'
  end.

Definition attr_error (name : string) : exc :=
  Exc (py "AttributeError") (py name).

(** [getattr(v, name)] on a data value. *)
Definition getattr (v : pyval) (name : string) : outcome pyval :=
  match v with
  | VObj attrs =>
      match assoc (py name) attrs with
      | Some x => Ret x
      | None => Raise (attr_error name)
      end
  | _ => Raise (attr_error name)
  end.

(** [hasattr(v, name)] *)
Definition hasattr (v : pyval) (name : string) : bool :=
  match getattr v name with Ret _ => true | Raise _ => false end.

(** [for x in v]: lists, and strings as their one-character strings. *)
Definition iter (v : pyval) : outcome (list pyval) :=
  match v with
  | VList l => Ret l
  | VStr s => Ret (map (fun c => VStr [c]) s)
  | _ => Raise (Exc (py "TypeError") (py "object is not iterable"))
  end.

(** Writer-plus-exception monad for code that prints, enqueues events and
    raises: the trace of effects so far and the outcome. *)
Inductive effect : Type :=
| Print (s : str)
| Enqueue (text : str)                     (* event_queue.enqueue_event(new_agent_text_message(text)) *)
| CallSkill (skill : str).                 (* a call into the Weather Agent *)

Definition M (A : Type) : Type := (list effect * outcome A)%type.

Definition mret {A} (a : A) : M A := ([], Ret a).
Definition mthrow {A} (e : exc) : M A := ([], Raise e).
Definition lift {A} (o : outcome A) : M A := ([], o).
Definition emit (e : effect) : M unit := ([e], Ret tt).

Definition mbind {A B} (m : M A) (k : A -> M B) : M B :=
  match m with
  | (t, Ret a) => let (t', o) := k a in (t ++ t', o)
  | (t, Raise e) => (t, Raise e)
  end.

(** [try: m except Exception as e: h(e)] *)
Definition mtry {A} (m : M A) (h : exc -> M A) : M A :=
  match m with
  | (t, Ret a) => (t, Ret a)
  | (t, Raise e) => let (t', o) := h e in (t ++ t', o)
  end.

End Py.
Import Py.

Declare Scope py_monad_scope.
Notation "x <- m ;; k" := (mbind m (fun x => k))
  (at level 61, m at next level, right associativity) : py_monad_scope.
Notation "m ;;; k" := (mbind m (fun _ => k))
  (at level 61, right associativity) : py_monad_scope.
Open Scope py_monad_scope.

(* ------------------------------------------------------------------ *)
(** ** JSON values (the results of [json.loads]) *)

Module Json.

(** A JSON number as Python holds it after [json.loads]: an int, a finite
    float (by its repr), or one of the non-finite floats that [json.loads]
    accepts ([NaN], [Infinity], [-Infinity]). *)
Inductive num : Type :=
| NInt (z : Z)
| NFloat (repr : str)
| NNaN
| NInf (negative : bool).

(** A JSON object is the dict [json.loads] builds: keys in order, each once. *)
Inductive json : Type :=
| JNull
| JBool (b : bool)
| JNum (n : num)
| JStr (s : str)
| JArr (l : list json)
| JObj (fields : list (str * json)).

Fixpoint mantissa (r : str) : str :=
  match r with
  | c :: r' => if Ascii.eqb c "e" || Ascii.eqb c "E" then [] else c :: mantissa r'
  | [] => []
  end.

Definition jtruthy (j : json) : bool :=
  match j with
  | JNull => false
  | JBool b => b
  | JNum (NInt z) => negb (Z.eqb z 0)
  | JNum (NFloat r) =>
      (* a float is falsy iff every digit of its mantissa is 0 *)
      existsb (fun c => is_digit c && negb (Ascii.eqb c "0"))
        (mantissa r)
  | JNum _ => true
  | JStr s => truthy s
  | JArr l => match l with [] => false | _ => true end
  | JObj l => match l with [] => false | _ => true end
  end.

Definition type_name (j : json) : str :=
  match j with
  | JNull => py "NoneType" | JBool _ => py "bool"
  | JNum (NInt _) => py "int" | JNum _ => py "float"
  | JStr _ => py "str" | JArr _ => py "list" | JObj _ => py "dict"
  end.

(** [j.get(k, default)]: only a dict has [.get]. *)
Definition jget (j : json) (k : string) (default : json) : outcome json :=
  match j with
  | JObj l => Ret (match assoc (py k) l with Some v => v | None => default end)
  | _ => Raise (Exc (py "AttributeError")
                    (py "'" ++ type_name j ++ py "' object has no attribute 'get'"))
  end.

(** [j[0]] *)
Definition jindex0 (j : json) : outcome json :=
  match j with
  | JArr (x :: _) => Ret x
  | JArr [] => Raise (Exc (py "IndexError") (py "list index out of range"))
  | JStr (c :: _) => Ret (JStr [c])
  | JStr [] => Raise (Exc (py "IndexError") (py "string index out of range"))
  | JObj _ => Raise (Exc (py "KeyError") (py "0"))
  | _ => Raise (Exc (py "TypeError")
                    (py "'" ++ type_name j ++ py "' object is not subscriptable"))
  end.

Fixpoint concat (sep : str) (l : list str) : str :=
  match l with [] => [] | [x] => x | x :: l' => x ++ sep ++ concat sep l' end.

Definition z_decimal (z : Z) : str := py (NilEmpty.string_of_int (Z.to_int z)).

(** [str(v)] of a value read from JSON, as an f-string renders it.
    Containers are rendered in the shape of their repr, with strings quoted
    by single quotes and not escaped. *)
Fixpoint py_str (j : json) : str :=
  match j with
  | JNull => py "None"
  | JBool true => py "True"
  | JBool false => py "False"
  | JNum (NInt z) => z_decimal z
  | JNum (NFloat r) => r
  | JNum NNaN => py "nan"
  | JNum (NInf false) => py "inf"
  | JNum (NInf true) => py "-inf"
  | JStr s => s
  | JArr l =>
      py "[" ++ concat (py ", ")
        (map (fun x => match x with JStr s => py "'" ++ s ++ py "'" | _ => py_str x end) l)
      ++ py "]"
  | JObj l =>
      py "{" ++ concat (py ", ")
        (map (fun kv => py "'" ++ fst kv ++ py "': " ++
               match snd kv with JStr s => py "'" ++ s ++ py "'" | _ => py_str (snd kv) end) l)
      ++ py "}"
  end.

End Json.
Import Json.

(* ------------------------------------------------------------------ *)
(** ** [WeatherAgent]: the seven skills over the weather and AI capabilities *)

Module Agent.

Definition dq : string := String (ascii_of_nat 34) EmptyString.

(** What the skills consume: the [WeatherClient] calls and formatters (an
    external collaborator), the language model's [generate_content(...).text]
    ([None] when the response carries no text) and [json.dumps(_, indent=2)].
    [compare_table] is the body of [compare_weather] after its two fetches:
    it reads the provider records and renders the table with float
    formatting, and may raise. *)
Record caps : Type := Caps {
  wc_get_current_weather : str -> outcome json;
  wc_get_forecast : str -> outcome json;
  wc_geocode : str -> outcome json;
  wc_get_air_quality : json -> json -> outcome json;
  wc_format_current_weather : json -> str;
  wc_format_forecast : json -> Z -> str;
  wc_format_air_quality : json -> str;
  ai_generate_text : str -> outcome (option str);
  json_dumps : json -> str;
  compare_table : json -> json -> outcome str
}.

Definition obind {A B} (o : outcome A) (k : A -> outcome B) : outcome B :=
  match o with Ret a => k a | Raise e => Raise e end.

(** [try: o except Exception as e: h(e)] *)
Definition ocatch {A} (o : outcome A) (h : exc -> outcome A) : outcome A :=
  match o with Ret a => Ret a | Raise e => h e end.

Notation "x <-- o ;; k" := (obind o (fun x => k))
  (at level 61, o at next level, right associativity).

(** The failure marker at the head of the skills' error strings, as written
    in [weather_agent.py]. *)
Definition agent_mark : str := py "‚ùå".

Definition upper (s : str) : str := map upper_c s.

Fixpoint join (sep : str) (l : list str) : str :=
  match l with [] => [] | [x] => x | x :: l' => x ++ sep ++ join sep l' end.

Definition nl : str := [ascii_of_nat 10].

Definition recommend_prompt (data : str) : str :=
  py ("Based on this weather data, provide brief, practical recommendations:

Weather Data:
")%string ++ data ++ py ("

Provide:
1. **What to Wear** (2-3 items)
2. **Activities** (2-3 suggestions appropriate for this weather)
3. **Health Tips** (1-2 tips based on conditions)

Keep it concise and friendly!")%string.
Definition city_prompt (question : str) : str :=
  py ("Extract the city name from this weather question. 
If no specific city is mentioned, respond with " ++ dq ++ "NONE" ++ dq ++ ".
Only respond with the city name or " ++ dq ++ "NONE" ++ dq ++ ", nothing else.

Question: ")%string ++ question.
Definition answer_prompt (question weather_context : str) : str :=
  py ("You are a friendly weather assistant. Answer this question:

Question: ")%string ++ question ++ py ("

Weather Data (if available):
")%string ++ weather_context ++ py ("

Provide a helpful, conversational answer. If no city was specified and the question needs one, 
ask the user which city they're interested in.")%string.
Definition summary_prompt (main description : str) : str :=
  py ("Based on this weather data, provide a brief (2-3 sentence) overall assessment:
            
Current: ")%string ++ main ++ py ("
Conditions: ")%string ++ description ++ py ("

Is it a good day to be outside? Any weather concerns?")%string.

Section Skills.

Variable c : caps.

(** [_ai_analyze] *)
Definition ai_analyze (prompt : str) : str :=
  match ai_generate_text c prompt with
  | Ret (Some t) => strip t
  | Ret None => py "AI analysis unavailable: 'NoneType' object has no attribute 'strip'"
  | Raise e => py "AI analysis unavailable: " ++ exc_msg e
  end.

Definition not_found_current (city : str) : str :=
  agent_mark ++ py " City '" ++ city ++
  py "' not found. Please check the spelling or try adding a country code (e.g., 'Paris,FR')."
.

Definition error_current (city msg : str) : str :=
  agent_mark ++ py " Error fetching weather for " ++ city ++ py ": " ++ msg.

(** SKILL 1: [get_current_weather] *)
Definition get_current_weather (city : str) : outcome str :=
  ocatch
    (data <-- wc_get_current_weather c city ;;
     Ret (wc_format_current_weather c data))
    (fun e =>
       let error_msg := exc_msg e in
       if contains (py "404") error_msg then Ret (not_found_current city)
       else Ret (error_current city error_msg)).

(** [min(max(days, 1), 5)] *)
Definition clamp_days (days : Z) : Z := Z.min (Z.max days 1) 5.

(** SKILL 2: [get_forecast] *)
Definition get_forecast (city : str) (days : Z) : outcome str :=
  ocatch
    (let days := clamp_days days in
     data <-- wc_get_forecast c city ;;
     Ret (wc_format_forecast c data days))
    (fun e =>
       let error_msg := exc_msg e in
       if contains (py "404") error_msg
       then Ret (agent_mark ++ py " City '" ++ city ++ py "' not found.")
       else Ret (agent_mark ++ py " Error fetching forecast for " ++ city ++ py ": " ++ error_msg)).

(** SKILL 3: [get_air_quality] *)
Definition get_air_quality (city : str) : outcome str :=
  ocatch
    (locations <-- wc_geocode c city ;;
     if negb (jtruthy locations)
     then Ret (agent_mark ++ py " City '" ++ city ++ py "' not found.")
     else
       loc0 <-- jindex0 locations ;;
       lat <-- jget loc0 "lat" JNull ;;
       lon <-- jget loc0 "lon" JNull ;;
       city_name <-- jget loc0 "name" (JStr city) ;;
       country <-- jget loc0 "country" (JStr []) ;;
       data <-- wc_get_air_quality c lat lon ;;
       let result := wc_format_air_quality c data in
       Ret (py "üìç **" ++ py_str city_name ++ py ", " ++ py_str country ++ py "**" ++ nl ++ nl ++ result))
    (fun e => Ret (agent_mark ++ py " Error fetching air quality for " ++ city ++ py ": " ++ exc_msg e)).

(** SKILL 4: [get_recommendations] *)
Definition get_recommendations (city : str) : outcome str :=
  ocatch
    (weather_data <-- wc_get_current_weather c city ;;
     let recommendations := ai_analyze (recommend_prompt (json_dumps c weather_data)) in
     let formatted_weather := wc_format_current_weather c weather_data in
     Ret (formatted_weather ++ nl ++ nl ++ py "---" ++ nl ++ nl ++ py "## üéØ Recommendations" ++ nl ++ nl ++ recommendations))
    (fun e => Ret (agent_mark ++ py " Error getting recommendations for " ++ city ++ py ": " ++ exc_msg e)).

(** SKILL 5: [compare_weather] *)
Definition compare_weather (city1 city2 : str) : outcome str :=
  ocatch
    (data1 <-- wc_get_current_weather c city1 ;;
     data2 <-- wc_get_current_weather c city2 ;;
     compare_table c data1 data2)
    (fun e => Ret (agent_mark ++ py " Error comparing weather: " ++ exc_msg e)).

(** SKILL 6: [query] *)
Definition query (question : str) : outcome str :=
  ocatch
    (let city_response := ai_analyze (city_prompt question) in
     let city := if str_eqb (upper (strip city_response)) (py "NONE") then []
                 else strip city_response in
     let weather_context :=
       if truthy city then
         match wc_get_current_weather c city with
         | Ret weather_data => json_dumps c weather_data
         | Raise _ => py "Weather data unavailable"
         end
       else py "No specific city mentioned" in
     Ret (ai_analyze (answer_prompt question weather_context)))
    (fun e => Ret (agent_mark ++ py " Error processing query: " ++ exc_msg e)).

(** SKILL 7: [get_weather_summary] *)
Definition get_weather_summary (city : str) : outcome str :=
  ocatch
    (current <-- wc_get_current_weather c city ;;
     forecast <-- wc_get_forecast c city ;;
     locations <-- wc_geocode c city ;;
     air_quality <--
       (if jtruthy locations then
          loc0 <-- jindex0 locations ;;
          lat <-- jget loc0 "lat" JNull ;;
          lon <-- jget loc0 "lon" JNull ;;
          a <-- wc_get_air_quality c lat lon ;;
          Ret a
        else Ret JNull) ;;
     let current_formatted := wc_format_current_weather c current in
     let forecast_formatted := wc_format_forecast c forecast 3 in
     let output :=
       [py "# üìä Complete Weather Summary"; []; py "## Current Conditions";
        current_formatted; []; py "---"; []; forecast_formatted] in
     let output :=
       if jtruthy air_quality
       then output ++ [[]; py "---"; []; py "## Air Quality"; wc_format_air_quality c air_quality]
       else output in
     main <-- jget current "main" (JObj []) ;;
     weather <-- jget current "weather" (JArr [JObj []]) ;;
     w0 <-- jindex0 weather ;;
     description <-- jget w0 "description" (JStr (py "Unknown")) ;;
     let insights := ai_analyze (summary_prompt (json_dumps c main) (py_str description)) in
     Ret (join nl (output ++ [[]; py "---"; []; py "## ü§ñ AI Insights"; insights])))
    (fun e => Ret (agent_mark ++ py " Error getting weather summary for " ++ city ++ py ": " ++ exc_msg e)).

End Skills.

End Agent.

(* ------------------------------------------------------------------ *)
(** ** [WeatherAgentExecutor]: query extraction, dispatch and [execute] *)

Module Executor.

Import Agent.

(** The request context as the executor probes it: its attributes as data,
    and the behaviour of its [get_user_input()] method ([None] when the
    context has no such method). *)
Record context : Type := Ctx {
  ctx_attrs : list (str * pyval);
  ctx_get_user_input : option (outcome pyval)
}.

Definition ctx_obj (ctx : context) : pyval := VObj (ctx_attrs ctx).

Definition vbind {A B} (o : outcome A) (k : A -> outcome B) : outcome B :=
  match o with Ret a => k a | Raise e => Raise e end.

(** [for part in parts: if hasattr(part, 'text') and part.text: return part.text] *)
Fixpoint first_text_part (parts : list pyval) : option pyval :=
  match parts with
  | [] => None
  | part :: parts' =>
      match getattr part "text" with
      | Ret t => if vtruthy t then Some t else first_text_part parts'
      | Raise _ => first_text_part parts'
      end
  end.

(** Strategy 1: [if hasattr(context, '_user_text') and context._user_text]. *)
Definition step_user_text (ctx : context) : option pyval :=
  if hasattr (ctx_obj ctx) "_user_text" then
    match getattr (ctx_obj ctx) "_user_text" with
    | Ret v => if vtruthy v then Some v else None
    | Raise _ => None
    end
  else None.

(** Strategy 2: [user_input = context.get_user_input(); if user_input: ...] *)
Definition step_get_user_input (ctx : context) : outcome (option pyval) :=
  match ctx_get_user_input ctx with
  | None => Raise (attr_error "get_user_input")
  | Some r => vbind r (fun user_input =>
                if vtruthy user_input then Ret (Some user_input) else Ret None)
  end.

(** Strategy 3: [if context.message and context.message.parts: for part in ...] *)
Definition step_message (ctx : context) : outcome (option pyval) :=
  vbind (getattr (ctx_obj ctx) "message") (fun message =>
  if vtruthy message then
    vbind (getattr message "parts") (fun parts =>
    if vtruthy parts then vbind (iter parts) (fun l => Ret (first_text_part l))
    else Ret None)
  else Ret None).

(** Strategy 4: [if hasattr(context, '_message') and context._message: for part in context._message.parts: ...] *)
Definition step_internal_message (ctx : context) : outcome (option pyval) :=
  if hasattr (ctx_obj ctx) "_message" then
    vbind (getattr (ctx_obj ctx) "_message") (fun m =>
    if vtruthy m then
      vbind (getattr m "parts") (fun parts =>
      vbind (iter parts) (fun l => Ret (first_text_part l)))
    else Ret None)
  else Ret None.

(** Strategy 5: [if context.request and context.request.message: msg = ...;
    if hasattr(msg, 'parts') and msg.parts: for part in msg.parts: ...] *)
Definition step_request (ctx : context) : outcome (option pyval) :=
  vbind (getattr (ctx_obj ctx) "request") (fun request =>
  if vtruthy request then
    vbind (getattr request "message") (fun m =>
    if vtruthy m then
      if hasattr m "parts" then
        vbind (getattr m "parts") (fun parts =>
        if vtruthy parts then vbind (iter parts) (fun l => Ret (first_text_part l))
        else Ret None)
      else Ret None
    else Ret None)
  else Ret None).

(** [try: <step, returning on a hit> except Exception: pass], then [k]. *)
Definition attempt (step : outcome (option pyval)) (k : outcome pyval) : outcome pyval :=
  match step with
  | Ret (Some v) => Ret v
  | Ret None => k
  | Raise _ => k
  end.

(** [_extract_query] *)
Definition extract_query (ctx : context) : outcome pyval :=
  match step_user_text ctx with
  | Some v => Ret v
  | None =>
      attempt (step_get_user_input ctx)
        (attempt (step_message ctx)
          (attempt (step_internal_message ctx)
            (attempt (step_request ctx)
              (Ret (VStr [])))))
  end.

Definition dq : string := String (ascii_of_nat 34) EmptyString.

(** [_get_help_message] *)
Definition help_message : str :=
  py ("# ☀️ Weather AI Agent

I'm your AI-powered weather assistant! Here's what I can do:

## 📋 Available Commands

### 🌡️ Current Weather
Get current conditions for any city:
- " ++ dq ++ "Weather in London" ++ dq ++ "
- " ++ dq ++ "Temperature in Tokyo" ++ dq ++ "
- " ++ dq ++ "New York weather" ++ dq ++ "

### 📅 Weather Forecast
Get up to 5-day forecast:
- " ++ dq ++ "Forecast for Paris" ++ dq ++ "
- " ++ dq ++ "5 day forecast London" ++ dq ++ "
- " ++ dq ++ "What's the weather tomorrow in Berlin" ++ dq ++ "

### 💨 Air Quality
Check air quality index:
- " ++ dq ++ "Air quality in Delhi" ++ dq ++ "
- " ++ dq ++ "AQI Beijing" ++ dq ++ "
- " ++ dq ++ "Pollution in Los Angeles" ++ dq ++ "

### 👕 Recommendations
Get clothing and activity suggestions:
- " ++ dq ++ "What to wear in London" ++ dq ++ "
- " ++ dq ++ "Should I take an umbrella in Seattle" ++ dq ++ "

### 🌍 Compare Cities
Compare weather between two cities:
- " ++ dq ++ "Compare London and Paris" ++ dq ++ "
- " ++ dq ++ "Tokyo vs New York weather" ++ dq ++ "

### 📊 Complete Summary
Get full weather report:
- " ++ dq ++ "Weather summary for Sydney" ++ dq ++ "
- " ++ dq ++ "Complete weather report Tokyo" ++ dq ++ "

### 💬 Natural Language
Ask anything about weather:
- " ++ dq ++ "Is it a good day for hiking in Denver?" ++ dq ++ "
- " ++ dq ++ "Will it rain this weekend in Miami?" ++ dq ++ "

---
**Tip:** Just type a city name for quick current weather!
")%string.

(** The failure glyph of [execute]'s own exception handler. *)
Definition exec_mark : str := py "❌".

(** The seven skills as [execute] calls them. *)
Record agent_ops : Type := AgentOps {
  op_current : str -> outcome str;
  op_forecast : str -> Z -> outcome str;
  op_air_quality : str -> outcome str;
  op_recommendations : str -> outcome str;
  op_compare : str -> str -> outcome str;
  op_summary : str -> outcome str;
  op_query : str -> outcome str
}.

Definition weather_agent (c : caps) : agent_ops :=
  AgentOps (get_current_weather c) (get_forecast c) (get_air_quality c)
           (get_recommendations c) (compare_weather c) (get_weather_summary c)
           (query c).

Definition arg_str (a : arg) : str :=
  match a with AStr s => s | AInt z => z_decimal z end.

(** [params["k"]] *)
Definition param (params : list (str * arg)) (k : string) : outcome str :=
  match assoc (py k) params with
  | Some a => Ret (arg_str a)
  | None => Raise (Exc (py "KeyError") (py k))
  end.

(** [params.get("days", 3)], used as the [int] the skill clamps. *)
Definition param_days (params : list (str * arg)) : outcome Z :=
  match assoc (py "days") params with
  | Some (AInt z) => Ret z
  | Some (AStr _) => Raise (Exc (py "TypeError")
                        (py "'>' not supported between instances of 'int' and 'str'"))
  | None => Ret 3%Z
  end.

Definition call {A} (skill : string) (o : outcome A) : M A :=
  emit (CallSkill (py skill)) ;;; lift o.

(** The dispatch step of [execute]: the [try] block routing to a skill and
    its [except Exception as e] handler. *)
Definition dispatch (ag : agent_ops) (q : str) (it : intent) : M str :=
  let '(skill, params) := it in
  mtry
    (if str_eqb skill (py "current") then
       city <- lift (param params "city") ;; call "current" (op_current ag city)
     else if str_eqb skill (py "forecast") then
       city <- lift (param params "city") ;;
       days <- lift (param_days params) ;;
       call "forecast" (op_forecast ag city days)
     else if str_eqb skill (py "air_quality") then
       city <- lift (param params "city") ;; call "air_quality" (op_air_quality ag city)
     else if str_eqb skill (py "recommendations") then
       city <- lift (param params "city") ;; call "recommendations" (op_recommendations ag city)
     else if str_eqb skill (py "compare") then
       city1 <- lift (param params "city1") ;;
       city2 <- lift (param params "city2") ;;
       call "compare" (op_compare ag city1 city2)
     else if str_eqb skill (py "summary") then
       city <- lift (param params "city") ;; call "summary" (op_summary ag city)
     else
       let question := match assoc (py "question") params with
                       | Some a => arg_str a | None => q end in
       call "query" (op_query ag question))
    (fun e => mret (exec_mark ++ py " Error: " ++ exc_msg e)).

(** [query.strip()] on the extracted value: only a [str] has [.strip]. *)
Definition strip_val (v : pyval) : outcome str :=
  match v with
  | VStr s => Ret (strip s)
  | _ => Raise (attr_error "strip")
  end.

(** [str(v)] of the extracted value, as the first debug line prints it;
    containers are rendered in a simplified repr. *)
Fixpoint pyval_str (v : pyval) : str :=
  match v with
  | VNone => py "None"
  | VBool true => py "True"
  | VBool false => py "False"
  | VInt z => z_decimal z
  | VStr s => s
  | VList l => py "[" ++ concat (py ", ") (map pyval_str l) ++ py "]"
  | VObj _ => py "<object>"
  end.

Definition arg_repr (a : arg) : str :=
  match a with AStr s => py "'" ++ s ++ py "'" | AInt z => z_decimal z end.

(** [f"{params}"] for the intent's dict, strings in single quotes. *)
Definition params_repr (params : list (str * arg)) : str :=
  py "{" ++ concat (py ", ") (map (fun kv => py "'" ++ fst kv ++ py "': " ++ arg_repr (snd kv)) params)
  ++ py "}".

Definition debug_query (q : pyval) : str :=
  py "[DEBUG] Extracted query: '" ++ pyval_str q ++ py "'".

Definition debug_intent (it : intent) : str :=
  py "[DEBUG] Parsed intent: " ++ fst it ++ py ", params: " ++ params_repr (snd it).

(** [execute] *)
Definition execute (ag : agent_ops) (ctx : context) : M unit :=
  q <- lift (extract_query ctx) ;;
  emit (Print (debug_query q)) ;;;
  if negb (vtruthy q) then
    emit (Enqueue help_message)
  else
    stripped <- lift (strip_val q) ;;
    if str_eqb stripped [] then
      emit (Enqueue help_message)
    else
      match q with
      | VStr qs =>
          let it := parse_intent qs in
          emit (Print (debug_intent it)) ;;;
          response <- dispatch ag qs it ;;
          emit (Enqueue response)
      | _ => mret tt   (* not reached: [strip_val] raised for a non-[str] *)
      end.

End Executor.

(* ------------------------------------------------------------------ *)
(** ** [ServiceNowCompatibleHandler]: the JSON-RPC bridge *)

Module Handler.

Import Agent Executor.

(** The events [execute] enqueues are the a2a [Message]s built by
    [new_agent_text_message(text)]: one [Part] whose [root] is a [TextPart].
    A [Part] has no [text] attribute of its own; its [root] has one. *)
Record text_part : Type := TextPart { tp_text : str }.
Inductive part : Type := Part (root : text_part).
Record message : Type := Message { msg_parts : list part }.

Definition new_agent_text_message (text : str) : message :=
  Message [Part (TextPart text)].

Fixpoint events (trace : list effect) : list message :=
  match trace with
  | [] => []
  | Enqueue t :: trace' => new_agent_text_message t :: events trace'
  | _ :: trace' => events trace'
  end.

(** Method 1: the first part; it has no [text], so [part.root.text] is taken. *)
Definition method_parts (ev : message) : option str :=
  match msg_parts ev with
  | Part tp :: _ => Some (tp_text tp)
  | [] => None
  end.

(** Method 3: [event.model_dump()['parts']], each a dict with a ['text'] key. *)
Definition method_dump (ev : message) : option str :=
  match msg_parts ev with
  | Part tp :: _ => Some (tp_text tp)
  | [] => None
  end.

(** The loop over the collected events; [response_text] persists across
    iterations.  A [Message] has no [text] attribute, so method 2 never
    applies. *)
Fixpoint response_text_of (evs : list message) (response_text : str) : str :=
  match evs with
  | [] => response_text
  | ev :: evs' =>
      let r1 := match method_parts ev with Some t => t | None => response_text end in
      let r3 := if truthy r1 then r1
                else match method_dump ev with Some t => t | None => r1 end in
      if truthy r3 then r3 else response_text_of evs' r3
  end.

(** Starlette's [JSONResponse(content)] renders the content on construction:
    [json.dumps(content, ensure_ascii=False, allow_nan=False, indent=None,
    separators=(",", ":")).encode("utf-8")].  [json.dumps] raises on a
    non-finite float; the encoding raises on a lone surrogate. *)
Fixpoint finite (j : json) : bool :=
  match j with
  | JNum NNaN | JNum (NInf _) => false
  | JArr l => forallb finite l
  | JObj l => forallb (fun kv => finite (snd kv)) l
  | _ => true
  end.

Definition hex_digit (n : nat) : ascii := nth n (py "0123456789abcdef") "0"%char.
Definition dq_c : ascii := ascii_of_nat 34.
Definition bslash : ascii := ascii_of_nat 92.

(** [json.dumps]'s escaping of a [str] with [ensure_ascii=False]: the quote,
    the backslash and the control characters below 0x20 are escaped, every
    other character is written as is. *)
Definition escape_byte (c : ascii) : str :=
  let n := code c in
  if (n =? 34) || (n =? 92) then [bslash; c]
  else if n =? 8 then [bslash; "b"%char]
  else if n =? 12 then [bslash; "f"%char]
  else if n =? 10 then [bslash; "n"%char]
  else if n =? 13 then [bslash; "r"%char]
  else if n =? 9 then [bslash; "t"%char]
  else if n <? 32 then bslash :: py "u00" ++ [hex_digit (n / 16); hex_digit (n mod 16)]
  else [c].

Definition quote (s : str) : str := dq_c :: flat_map escape_byte s ++ [dq_c].

Definition dumps_num (n : num) : str :=
  match n with
  | NInt z => z_decimal z
  | NFloat r => r
  | NNaN => py "NaN"                 (* not reached: [allow_nan=False] raises first *)
  | NInf false => py "Infinity"
  | NInf true => py "-Infinity"
  end.

(** The [str] that [json.dumps] builds, with the separators [","] and [":"]. *)
Fixpoint dumps (j : json) : str :=
  match j with
  | JNull => py "null"
  | JBool true => py "true"
  | JBool false => py "false"
  | JNum n => dumps_num n
  | JStr s => quote s
  | JArr l => py "[" ++ concat (py ",") (map dumps l) ++ py "]"
  | JObj l =>
      py "{" ++ concat (py ",") (map (fun kv => quote (fst kv) ++ py ":" ++ dumps (snd kv)) l)
      ++ py "}"
  end.

(** The position, in code points, of the first lone surrogate of [s], and
    the bytes from there; [n] code points precede [s]. *)
Fixpoint first_surrogate (s : str) (n : nat) : option (nat * str) :=
  match s with
  | [] => None
  | a :: s' =>
      match s' with
      | b :: _ => if surrogate_lead a b then Some (n, s)
                  else first_surrogate s' (if is_cont a then n else S n)
      | [] => None
      end
  end.

(** The code point of the surrogate [s] starts with. *)
Definition surrogate_cp (s : str) : nat :=
  match s with
  | _ :: b :: c :: _ => 13 * 4096 + (code b - 128) * 64 + (code c - 128)
  | _ => 0
  end.

(** The number of lone surrogates that follow one another from the head of
    [s]: the UTF-8 encoder reports them together. *)
Fixpoint surrogate_run (s : str) : nat :=
  match s with
  | a :: b :: _ :: s' => if surrogate_lead a b then S (surrogate_run s') else 0
  | _ => 0
  end.

Definition nat_decimal (n : nat) : str := z_decimal (Z.of_nat n).

Definition hex4 (n : nat) : str :=
  map (fun k => hex_digit (n / 16 ^ k mod 16)) [3; 2; 1; 0].

(** The [UnicodeEncodeError] of [body.encode("utf-8")], with [str(e)] as
    CPython formats it for one character or for a run of them. *)
Definition encode_error (body : str) : exc :=
  Exc (py "UnicodeEncodeError")
    match first_surrogate body 0 with
    | Some (pos, rest) =>
        let k := surrogate_run rest in
        if k =? 1
        then py "'utf-8' codec can't encode character '\u" ++ hex4 (surrogate_cp rest) ++
             py "' in position " ++ nat_decimal pos ++ py ": surrogates not allowed"
        else py "'utf-8' codec can't encode characters in position " ++ nat_decimal pos ++
             py "-" ++ nat_decimal (pos + k - 1) ++ py ": surrogates not allowed"
    | None => []   (* not reached: called on a body holding a surrogate *)
    end.

Definition json_response (content : json) : outcome json :=
  if finite content then
    let body := dumps content in
    if has_surrogate body then Raise (encode_error body) else Ret content
  else Raise (Exc (py "ValueError") (py "Out of range float values are not JSON compliant")).

(** [JSONResponse(content)] does not raise. *)
Definition renders (content : json) : bool :=
  match json_response content with Ret _ => true | Raise _ => false end.

Definition jstr (s : string) : json := JStr (py s).

(** [_error_response] *)
Definition error_response (jsonrpc_id : json) (code : Z) (message : str) : outcome json :=
  json_response
    (JObj [(py "jsonrpc", jstr "2.0"); (py "id", jsonrpc_id);
           (py "error", JObj [(py "code", JNum (NInt code)); (py "message", JStr message)])]).

(** [for part in parts: ...] of [json] values. *)
Definition jiter (j : json) : outcome (list json) :=
  match j with
  | JArr l => Ret l
  | JStr s => Ret (map (fun c => JStr [c]) s)
  | JObj l => Ret (map (fun kv => JStr (fst kv)) l)
  | _ => Raise (Exc (py "TypeError") (py "'" ++ type_name j ++ py "' object is not iterable"))
  end.

Definition json_eqb_text (j : json) : bool :=
  match j with JStr s => str_eqb s (py "text") | _ => false end.

(** The part scan of [_handle_tasks_send]:
    [part_type = part.get("type") or part.get("kind")];
    [if part_type == "text": text_content = part.get("text", ""); break]. *)
Fixpoint scan_part_list (parts : list json) : outcome json :=
  match parts with
  | [] => Ret (jstr "")
  | part :: parts' =>
      obind (jget part "type" JNull) (fun t =>
      obind (if jtruthy t then Ret t else jget part "kind" JNull) (fun part_type =>
      if json_eqb_text part_type then jget part "text" (jstr "")
      else scan_part_list parts'))
  end.

Definition scan_parts (parts : json) : outcome json :=
  obind (jiter parts) scan_part_list.

Fixpoint pyval_of_json (j : json) : pyval :=
  match j with
  | JNull => VNone
  | JBool b => VBool b
  | JNum (NInt z) => VInt z
  | JNum _ => VObj []
  | JStr s => VStr s
  | JArr l => VList (map pyval_of_json l)
  | JObj l => VObj (map (fun kv => (fst kv, pyval_of_json (snd kv))) l)
  end.

(** [_create_request_context]: [TextPart(text=text)] accepts only a [str];
    the context gets [_user_text] and [_message]; [RequestContext] built
    without request params has [message = None], no [request] attribute,
    and [get_user_input()] (patched at import) returns [_user_text] when it
    is non-empty and otherwise the SDK's [""]. *)
Definition create_request_context (text task_id session_id : json) : outcome context :=
  match text with
  | JStr t =>
      Ret (Ctx [(py "task_id", pyval_of_json task_id);
                (py "context_id", pyval_of_json session_id);
                (py "message", VNone);
                (py "_user_text", VStr t);
                (py "_message",
                   VObj [(py "role", VStr (py "user"));
                         (py "parts", VList [VObj [(py "root", VObj [(py "text", VStr t)])]])])]
               (Some (Ret (if truthy t then VStr t else VStr []))))
  | _ => Raise (Exc (py "ValidationError") (py "Input should be a valid string"))
  end.

Definition text_json (t : str) : json :=
  JObj [(py "type", jstr "text"); (py "text", JStr t)].

Definition result_response (jsonrpc_id task_id session_id : json) (response_text : str) : json :=
  JObj [(py "jsonrpc", jstr "2.0"); (py "id", jsonrpc_id);
        (py "result",
           JObj [(py "id", task_id); (py "sessionId", session_id);
                 (py "status", JObj [(py "state", jstr "completed")]);
                 (py "message", JObj [(py "role", jstr "agent");
                                      (py "parts", JArr [text_json response_text])]);
                 (py "artifacts", JArr [JObj [(py "parts", JArr [text_json response_text])]])])].

Section Handlers.

(** [self.agent_executor.execute(context, event_queue)] *)
Variable run : context -> M unit.
(** The values of the successive [uuid.uuid4()] calls, by call site:
    0 in [_handle_message_send]; 1, 2 in [_handle_tasks_send]; 3 for the
    [messageId] in [_create_request_context]. *)
Variable uuid4 : nat -> str.

(** [_handle_tasks_send] *)
Definition handle_tasks_send (jsonrpc_id params : json) : outcome json :=
  ocatch
    (task_id <-- jget params "id" (JStr (uuid4 1)) ;;
     sid <-- jget params "sessionId" JNull ;;
     let session_id := if jtruthy sid then sid else JStr (uuid4 2) in
     message_data <-- jget params "message" (JObj []) ;;
     parts <-- jget message_data "parts" (JArr []) ;;
     text_content <-- scan_parts parts ;;
     context <-- create_request_context text_content task_id session_id ;;
     let (trace, o) := run context in
     _ <-- o ;;
     let response_text := response_text_of (events trace) [] in
     json_response (result_response jsonrpc_id task_id session_id response_text))
    (fun e => error_response jsonrpc_id (-32603) (py "Execution error: " ++ exc_msg e)).

(** [_handle_message_send] *)
Definition handle_message_send (jsonrpc_id params : json) : outcome json :=
  context_id <-- jget params "contextId" JNull ;;
  message <-- jget params "message" (JObj []) ;;
  handle_tasks_send jsonrpc_id
    (JObj [(py "id", JStr (uuid4 0)); (py "sessionId", context_id); (py "message", message)]).

Definition status_response (jsonrpc_id task_id : json) (state : string) : json :=
  JObj [(py "jsonrpc", jstr "2.0"); (py "id", jsonrpc_id);
        (py "result", JObj [(py "id", task_id);
                            (py "status", JObj [(py "state", jstr state)])])].

(** [_handle_tasks_get] *)
Definition handle_tasks_get (jsonrpc_id params : json) : outcome json :=
  task_id <-- jget params "id" JNull ;;
  json_response (status_response jsonrpc_id task_id "completed").

(** [_handle_tasks_cancel] *)
Definition handle_tasks_cancel (jsonrpc_id params : json) : outcome json :=
  task_id <-- jget params "id" JNull ;;
  json_response (status_response jsonrpc_id task_id "canceled").

Definition method_is (method : json) (name : string) : bool :=
  match method with JStr s => str_eqb s (py name) | _ => false end.

Definition is_decode_error (e : exc) : bool :=
  str_eqb (exc_class e) (py "JSONDecodeError").

(** The two [except] clauses of [handle_request]; [jsonrpc_id] is [None]
    when the exception came before it was bound. *)
Definition request_handler_exc (jsonrpc_id : json) (e : exc) : outcome json :=
  if is_decode_error e
  then error_response JNull (-32700) (py "Parse error: " ++ exc_msg e)
  else error_response jsonrpc_id (-32603) (py "Internal error: " ++ exc_msg e).

(** [handle_request], given the outcome of [json.loads(await request.body())]. *)
Definition handle_request (loaded : outcome json) : outcome json :=
  match loaded with
  | Raise e => request_handler_exc JNull e
  | Ret data =>
      match jget data "id" JNull with
      | Raise e => request_handler_exc JNull e
      | Ret jsonrpc_id =>
          ocatch
            (method <-- jget data "method" (jstr "") ;;
             params <-- jget data "params" (JObj []) ;;
             if method_is method "tasks/send" then handle_tasks_send jsonrpc_id params
             else if method_is method "message/send" then handle_message_send jsonrpc_id params
             else if method_is method "tasks/get" then handle_tasks_get jsonrpc_id params
             else if method_is method "tasks/cancel" then handle_tasks_cancel jsonrpc_id params
             else error_response jsonrpc_id (-32601) (py "Method not found: " ++ py_str method))
            (request_handler_exc jsonrpc_id)
      end
  end.

End Handlers.

(** The texts a trace enqueues, in order: [events] without the [Message]
    wrapper. *)
Fixpoint enqueued (trace : list effect) : list str :=
  match trace with
  | [] => []
  | Enqueue t :: trace' => t :: enqueued trace'
  | _ :: trace' => enqueued trace'
  end.

End Handler.

(* ------------------------------------------------------------------ *)
(** ** [main.py]: the API-key check *)

Module Main.

(** [s.replace(old, new)] for a non-empty [old]: occurrences are taken left
    to right without overlap; [skip] counts the characters of the occurrence
    just replaced that are still to be dropped. *)
Fixpoint replace_aux (old new : str) (skip : nat) (s : str) : str :=
  match s with
  | [] => []
  | c :: s' =>
      match skip with
      | S k => replace_aux old new k s'
      | O => if prefixb old s then new ++ replace_aux old new (length old - 1) s'
             else c :: replace_aux old new 0 s'
      end
  end.

Definition replace (s old new : str) : str := replace_aux old new 0 s.

(** The request headers, name and value, in the order sent.  The server
    hands Starlette the names lowercased, and [Headers.get(key)] lowercases
    [key] and returns the value of the first header of that name. *)
Definition headers : Type := list (str * str).

Fixpoint header_get (hs : headers) (key : str) : option str :=
  match hs with
  | [] => None
  | (k, v) :: hs' => if str_eqb (lower k) (lower key) then Some v else header_get hs' key
  end.

(** [a or b] for [a : str | None] and [b : str]. *)
Definition or_else (a : option str) (b : str) : str :=
  match a with
  | Some v => if truthy v then v else b
  | None => b
  end.

(** [verify_api_key]; [API_KEY] is the module constant
    [os.getenv("A2A_API_KEY", "")]. *)
Definition verify_api_key (API_KEY : str) (hs : headers) : bool :=
  if negb (truthy API_KEY) then true
  else
    let api_key :=
      or_else (header_get hs (py "x-sn-apikey"))
        (or_else (header_get hs (py "x-api-key"))
           (replace
              (replace (match header_get hs (py "Authorization") with
                        | Some v => v
                        | None => []
                        end) (py "Bearer ") [])
              (py "ApiKey ") [])) in
    str_eqb api_key API_KEY.

End Main.

(* ------------------------------------------------------------------ *)
(** ** Readings of the specification, to compare with the code *)

Module SpecSide.

Import Agent Executor.

(** Section 4.1: the five strategies as pure functions [context -> option],
    each one the code's step with any exception read as "no text". *)
Definition caught (o : outcome (option pyval)) : option pyval :=
  match o with Ret x => x | Raise _ => None end.

Definition strategies (ctx : context) : list (option pyval) :=
  [step_user_text ctx; caught (step_get_user_input ctx); caught (step_message ctx);
   caught (step_internal_message ctx); caught (step_request ctx)].

(** Short-circuit fold: the first strategy that yields, else [""]. *)
Fixpoint first_hit (l : list (option pyval)) : pyval :=
  match l with
  | [] => VStr []
  | Some v :: _ => v
  | None :: l' => first_hit l'
  end.

(** The [result.message] field of a JSON-RPC response, if there is one. *)
Definition result_message (r : outcome json) : option json :=
  match r with
  | Ret (JObj l) =>
      match assoc (py "result") l with
      | Some (JObj rl) => assoc (py "message") rl
      | _ => None
      end
  | _ => None
  end.

(** An optional field of a params object that, when present, [JSONResponse]
    can render (no [NaN] or [Infinity], no lone surrogate). *)
Definition renders_field (k : string) (l : list (str * json)) : bool :=
  match assoc (py k) l with Some v => Handler.renders v | None => true end.

(** [params.get(k, {})] of a params object. *)
Definition field (k : string) (l : list (str * json)) : json :=
  match assoc (py k) l with Some v => v | None => JObj [] end.

Definition message_json (response_text : str) : json :=
  JObj [(py "role", Handler.jstr "agent"); (py "parts", JArr [Handler.text_json response_text])].

(** Section 3.1 read as a function of the message alone: the text the part
    scan finds, the executor run on it, and the agent message carrying the
    collected response text (none when the scan or the run fails, or when
    the response, with its task and session ids left null, cannot be
    rendered). *)
Definition message_of (ag : agent_ops) (jsonrpc_id message : json) : option json :=
  match obind (jget message "parts" (JArr [])) Handler.scan_parts with
  | Ret tc =>
      match Handler.create_request_context tc JNull JNull with
      | Ret ctx =>
          let (trace, o) := execute ag ctx in
          match o with
          | Ret _ =>
              let text := Handler.response_text_of (Handler.events trace) [] in
              if Handler.renders (Handler.result_response jsonrpc_id JNull JNull text)
              then Some (message_json text)
              else None
          | Raise _ => None
          end
      | Raise _ => None
      end
  | Raise _ => None
  end.

(** A concrete agent whose every skill answers "ok", to run examples on. *)
Definition ok_agent : agent_ops :=
  AgentOps (fun _ => Ret (py "ok")) (fun _ _ => Ret (py "ok")) (fun _ => Ret (py "ok"))
           (fun _ => Ret (py "ok")) (fun _ _ => Ret (py "ok")) (fun _ => Ret (py "ok"))
           (fun _ => Ret (py "ok")).

(** A fixed uuid supply. *)
Definition uuid_fixed (n : nat) : str := py "00000000-0000-4000-8000-000000000000".

(** [part.get(k, d)] on a part that is a dict. *)
Definition field_or (p : json) (k : string) (d : json) : json :=
  match p with
  | JObj l => match assoc (py k) l with Some v => v | None => d end
  | _ => d
  end.

(** The part scan as the claim words it: the first part whose ["type"] or
    whose ["kind"] field equals ["text"]. *)
Definition claim_part_text (parts : list json) : json :=
  match find (fun p => Handler.json_eqb_text (field_or p "type" JNull) ||
                       Handler.json_eqb_text (field_or p "kind" JNull)) parts with
  | Some p => field_or p "text" (Handler.jstr "")
  | None => Handler.jstr ""
  end.

(** The effective tag of a part: ["type"] when truthy, else ["kind"]. *)
Definition part_tag (p : json) : json :=
  let t := field_or p "type" JNull in
  if jtruthy t then t else field_or p "kind" JNull.

Definition amended_part_text (parts : list json) : json :=
  match find (fun p => Handler.json_eqb_text (part_tag p)) parts with
  | Some p => field_or p "text" (Handler.jstr "")
  | None => Handler.jstr ""
  end.

Definition is_obj (j : json) : bool := match j with JObj _ => true | _ => false end.

(** Capabilities that are all down: every weather call and every language
    model call raises. *)
Definition weather_down : exc := Exc (py "ConnectionError") (py "weather service down").
Definition ai_down : exc := Exc (py "APIError") (py "quota exceeded").

Definition caps_down : caps :=
  Caps (fun _ => Raise weather_down) (fun _ => Raise weather_down)
       (fun _ => Raise weather_down) (fun _ _ => Raise weather_down)
       (fun _ => []) (fun _ _ => []) (fun _ => [])
       (fun _ => Raise ai_down) (fun _ => []) (fun _ _ => Raise weather_down).

(** The weather provider answers 404 for every city. *)
Definition not_found_exc : exc :=
  Exc (py "HTTPStatusError") (py "Client error '404 Not Found' for url 'https://api.openweathermap.org/data/2.5/weather'").

Definition caps_not_found : caps :=
  Caps (fun _ => Raise not_found_exc) (fun _ => Raise not_found_exc)
       (fun _ => Raise not_found_exc) (fun _ _ => Raise not_found_exc)
       (fun _ => []) (fun _ _ => []) (fun _ => [])
       (fun _ => Ret (Some (py "NONE"))) (fun _ => []) (fun _ _ => Raise not_found_exc).

(** The words that end the city in the first city pattern. *)
Definition temporal_words : list str := map py ["today"; "tomorrow"; "this"; "next"]%string.

(** A temporal word starts at index [k] of [w], in any letter case. *)
Definition temporal_at (w : str) (k : nat) : bool :=
  existsb (fun kw => prefixb kw (lower (skipn k w))) temporal_words.

(** A one-word city name: a non-empty run of ASCII letters in which no
    temporal word starts after the first letter. *)
Definition city_word (w : str) : bool :=
  (0 <? length w) && forallb is_alpha w &&
  forallb (fun k => negb (temporal_at w k)) (seq 1 (length w)).

(** The ASCII digit of [n]. *)
Definition digit (n : nat) : ascii := ascii_of_nat (48 + n).

End SpecSide.

(* ------------------------------------------------------------------ *)
(** ** Concrete collaborators, and what a client reads of a response *)

Module Samples.

Import Agent SpecSide.

(** The weather provider is down and the language model answers " none"
    followed by a newline to every prompt. *)
Definition caps_none : caps :=
  Caps (fun _ => Raise weather_down) (fun _ => Raise weather_down)
       (fun _ => Raise weather_down) (fun _ _ => Raise weather_down)
       (fun _ => []) (fun _ _ => []) (fun _ => [])
       (fun _ => Ret (Some (py " none" ++ [ascii_of_nat 10])))
       (fun _ => []) (fun _ _ => Raise weather_down).

(** Current weather, forecast and geocoding answer; the air-pollution
    endpoint is down. *)
Definition caps_aq_down : caps :=
  Caps (fun _ => Ret (JObj [(py "main", JObj [(py "temp", JNum (NInt 18))])]))
       (fun _ => Ret (JObj [(py "list", JArr [])]))
       (fun _ => Ret (JArr [JObj [(py "lat", JNum (NFloat (py "48.85")));
                                  (py "lon", JNum (NFloat (py "2.35")))]]))
       (fun _ _ => Raise weather_down)
       (fun _ => py "18 C") (fun _ _ => py "no forecast") (fun _ => py "AQI")
       (fun _ => Ret (Some (py "Fine.")))
       (fun _ => py "{}") (fun _ _ => Raise weather_down).

(** The message of a single text part "Tokyo". *)
Definition msg_tokyo : json :=
  JObj [(py "parts", JArr [JObj [(py "kind", Handler.jstr "text"); (py "text", Handler.jstr "Tokyo")]])].

(** A field of the [result] object of a JSON-RPC response. *)
Definition result_field (k : string) (r : outcome json) : option json :=
  match r with
  | Ret (JObj l) =>
      match assoc (py "result") l with
      | Some (JObj rl) => assoc (py k) rl
      | _ => None
      end
  | _ => None
  end.

End Samples.

(* ------------------------------------------------------------------ *)
(** ** Tools for reasoning about the matcher *)

Module Analysis.

Import Intent.

(** The texts a pattern can consume, anchors and captures ignored: an
    over-approximation of [mr], used to show that a pattern cannot match. *)
Inductive lang (icase : bool) : regex -> str -> Prop :=
| LClass p c : cmatch icase p c = true -> lang icase (RClass p) [c]
| LSeq r1 r2 u1 u2 : lang icase r1 u1 -> lang icase r2 u2 -> lang icase (RSeq r1 r2) (u1 ++ u2)
| LAltL r1 r2 u : lang icase r1 u -> lang icase (RAlt r1 r2) u
| LAltR r1 r2 u : lang icase r2 u -> lang icase (RAlt r1 r2) u
| LOptSome r u : lang icase r u -> lang icase (ROpt r) u
| LOptNone r : lang icase (ROpt r) []
| LRep p m g u : m <= length u -> Forall (fun c => cmatch icase p c = true) u ->
                 lang icase (RRep p m g) u
| LGroup n r u : lang icase r u -> lang icase (RGroup n r) u
| LEnd : lang icase REnd []
| LWordB : lang icase RWordB []
| LEps : lang icase REps [].

(** A sequence of character tests, and where it occurs in a text. *)
Fixpoint pprefix (ps : list (ascii -> bool)) (s : str) : bool :=
  match ps, s with
  | [], _ => true
  | p :: ps', c :: s' => p c && pprefix ps' s'
  | _ :: _, [] => false
  end.

Fixpoint pcontains (ps : list (ascii -> bool)) (s : str) : bool :=
  pprefix ps s || match s with [] => false | _ :: s' => pcontains ps s' end.

(** The character tests of the literals and of [\s] under IGNORECASE. *)
Definition ci (k : ascii) : ascii -> bool := cmatch true (Ascii.eqb k).
Definition sp_i : ascii -> bool := cmatch true sp.
Definition needle (s : string) : list (ascii -> bool) := map ci (py s).

(** What each compare pattern needs somewhere in the text:
    ["compare"] then a space; a space, ["vs"] or ["versus"], a space;
    ["weather"] then a space. *)
Definition cmp_needles : list (list (ascii -> bool)) :=
  [needle "compare" ++ [sp_i]; (sp_i :: needle "vs") ++ [sp_i];
   (sp_i :: needle "versus") ++ [sp_i]; needle "weather" ++ [sp_i]].

(** The part of the first city pattern after the city group. *)
Definition city_tail : regex :=
  seqs [country_suffix; RRep sp 0 true;
        alts [chr "?"; REnd; lit "today"; lit "tomorrow"; lit "this"; lit "next"]].

(** The state the first city pattern reaches when its lazy city group has
    taken the first [k] letters of [w], after [pre_kw] and one space. *)
Definition city_state (pre_kw b w post : str) (k : nat) : mstate :=
  set_cap 1 (firstn k w)
    (MS (rev (firstn k w) ++ " "%char :: rev pre_kw ++ b) (skipn k w ++ post) []).

(** *** Rendering a response *)

(** [y] is empty or starts with an ASCII byte. *)
Definition head_ascii (y : PyStr.str) : bool :=
  match y with [] => true | c :: _ => PyStr.is_ascii c end.

(** [json.dumps] escapes an ASCII byte into a non-empty ASCII text and
    keeps any other byte as it is. *)
Definition escape_ok (c : ascii) : bool :=
  if PyStr.is_ascii c
  then forallb PyStr.is_ascii (Handler.escape_byte c) &&
       match Handler.escape_byte c with [] => false | _ => true end
  else match Handler.escape_byte c with [d] => Ascii.eqb d c | _ => false end.

(** A handler outcome [handle_request] can always turn into a rendered
    response: a response [JSONResponse] renders, or an exception whose
    message holds no lone surrogate. *)
Definition ok_out (o : Py.outcome Json.json) : Prop :=
  match o with
  | Py.Ret j => Handler.renders j = true
  | Py.Raise e => PyStr.has_surrogate (Py.exc_msg e) = false
  end.

End Analysis.

(* ================================================================== *)
(** * Proofs *)

Module Proofs.

Import Agent Executor Handler SpecSide.

Lemma first_text_part_truthy (parts : list pyval) (v : pyval) :
  first_text_part parts = Some v -> vtruthy v = true.
Proof.
  induction parts as [|p ps IH]; simpl; [discriminate|].
  destruct (getattr p "text") as [t|e]; [|exact IH].
  destruct (vtruthy t) eqn:Ht; [intros H; injection H as <-; exact Ht | exact IH].
Qed.

Lemma vbind_first_text_part {A} (o : outcome A) (k : A -> list pyval) v :
  caught (vbind o (fun a => Ret (first_text_part (k a)))) = Some v -> vtruthy v = true.
Proof.
  destruct o as [a|e]; simpl; [apply first_text_part_truthy | discriminate].
Qed.

(** Every strategy that yields, yields a non-empty (truthy) value. *)
Lemma strategies_truthy (ctx : context) (v : pyval) :
  In (Some v) (strategies ctx) -> vtruthy v = true.
Proof.
  unfold strategies; simpl.
  intros [H|[H|[H|[H|[H|[]]]]]].
  - unfold step_user_text in H.
    destruct (hasattr _ _); [|discriminate].
    destruct (getattr _ _) as [u|e]; [|discriminate].
    destruct (vtruthy u) eqn:Hu; [injection H as ->; exact Hu | discriminate].
  - unfold caught, step_get_user_input in H.
    destruct (ctx_get_user_input ctx) as [[u|e]|]; simpl in H; try discriminate.
    destruct (vtruthy u) eqn:Hu; [injection H as ->; exact Hu | discriminate].
  - unfold caught, step_message in H.
    destruct (getattr (ctx_obj ctx) "message") as [m|e]; simpl in H; [|discriminate].
    destruct (vtruthy m); [|discriminate].
    destruct (getattr m "parts") as [ps|e]; simpl in H; [|discriminate].
    destruct (vtruthy ps); [|discriminate].
    destruct (iter ps) as [l|e]; simpl in H; [|discriminate].
    exact (first_text_part_truthy _ _ H).
  - unfold caught, step_internal_message in H.
    destruct (hasattr _ _); [|discriminate].
    destruct (getattr (ctx_obj ctx) "_message") as [m|e]; simpl in H; [|discriminate].
    destruct (vtruthy m); [|discriminate].
    destruct (getattr m "parts") as [ps|e]; simpl in H; [|discriminate].
    destruct (iter ps) as [l|e]; simpl in H; [|discriminate].
    exact (first_text_part_truthy _ _ H).
  - unfold caught, step_request in H.
    destruct (getattr (ctx_obj ctx) "request") as [r|e]; simpl in H; [|discriminate].
    destruct (vtruthy r); [|discriminate].
    destruct (getattr r "message") as [m|e]; simpl in H; [|discriminate].
    destruct (vtruthy m); [|discriminate].
    destruct (hasattr m "parts"); [|discriminate].
    destruct (getattr m "parts") as [ps|e]; simpl in H; [|discriminate].
    destruct (vtruthy ps); [|discriminate].
    destruct (iter ps) as [l|e]; simpl in H; [|discriminate].
    exact (first_text_part_truthy _ _ H).
Qed.

Lemma attempt_caught (o : outcome (option pyval)) (k : outcome pyval) :
  attempt o k = match caught o with Some v => Ret v | None => k end.
Proof. destruct o as [[v|]|e]; reflexivity. Qed.

(** C5 *)
(** [_extract_query] never raises: on every context it returns the value of
    the first of the five strategies (override text field, [get_user_input()],
    the primary message's parts, the internal [_message]'s parts, the parts of
    [request.message]) that yields a non-empty text, a failing strategy
    counting as yielding nothing, and [""] when none yields. *)
Theorem extract_query_first_hit (ctx : context) :
  extract_query ctx = Ret (first_hit (strategies ctx)) /\
  (forall v, In (Some v) (strategies ctx) -> vtruthy v = true).
Proof.
  split; [|apply strategies_truthy].
  unfold extract_query, strategies; simpl.
  destruct (step_user_text ctx); [reflexivity|].
  rewrite !attempt_caught.
  destruct (caught (step_get_user_input ctx)); [reflexivity|].
  destruct (caught (step_message ctx)); [reflexivity|].
  destruct (caught (step_internal_message ctx)); [reflexivity|].
  destruct (caught (step_request ctx)); reflexivity.
Qed.

(** C8 *)
(** When the extracted query is empty or whitespace only, [execute] prints
    the extracted query, enqueues the help message and stops: no intent is
    classified (no "Parsed intent" line) and no skill is called. *)
Theorem empty_query_help (ag : agent_ops) (ctx : context) (q : str) :
  extract_query ctx = Ret (VStr q) -> strip q = [] ->
  execute ag ctx = ([Print (debug_query (VStr q)); Enqueue help_message], Ret tt).
Proof.
  intros Hq Hs. unfold execute. rewrite Hq. simpl.
  destruct (truthy q); simpl; [|reflexivity].
  rewrite Hs. reflexivity.
Qed.

(** C6 *)
(** The compare rule comes first in [_parse_intent]: whenever one of the
    three compare patterns matches, the result is [compare] with the trimmed
    groups of the first matching pattern, whatever other keywords the text
    holds; "Compare London and Paris" gives city1 "London", city2 "Paris". *)
Theorem compare_rule_wins (q : str) (m : mstate) :
  first_compare compare_patterns q = Some m ->
  parse_intent q = (py "compare", [(py "city1", AStr (strip (group_text 1 m)));
                                   (py "city2", AStr (strip (group_text 2 m)))]) /\
  parse_intent (py "Compare London and Paris") =
    (py "compare", [(py "city1", AStr (py "London")); (py "city2", AStr (py "Paris"))]).
Proof.
  intros H. split.
  - unfold parse_intent. rewrite H. reflexivity.
  - vm_compute. reflexivity.
Qed.

(** C9 *)
(** A text with at most three words, matching no compare pattern and no
    keyword group, from which [_extract_city] gets a non-empty city, is
    classified [current] with that city; "Tokyo" gives current "Tokyo". *)
Theorem bare_city_current (q c : str) :
  first_compare compare_patterns q = None ->
  forallb (fun ws => negb (any_in ws (strip (lower q))))
    [forecast_words; air_words; recommend_words; summary_words; current_words] = true ->
  extract_city q = Some c -> c <> [] -> length (split q) <= 3 ->
  parse_intent q = (py "current", [(py "city", AStr c)]) /\
  parse_intent (py "Tokyo") = (py "current", [(py "city", AStr (py "Tokyo"))]).
Proof.
  intros Hc Hkw Hcity Hne Hlen. split; [|vm_compute; reflexivity].
  unfold parse_intent, keyword_rule. rewrite Hc.
  cbn [forallb] in Hkw. rewrite !andb_true_iff, !negb_true_iff in Hkw.
  destruct Hkw as [H1 [H2 [H3 [H4 [H5 _]]]]].
  rewrite H1, H2, H3, H4, H5, Hcity. cbn [city_truthy].
  destruct c as [|a c']; [contradiction|]. simpl.
  apply Nat.leb_le in Hlen. rewrite Hlen. reflexivity.
Qed.

(** [execute] reads its context only through [_extract_query]. *)
Lemma execute_ext (ag : agent_ops) (ctx ctx' : context) :
  extract_query ctx = extract_query ctx' -> execute ag ctx = execute ag ctx'.
Proof. intros H. unfold execute. rewrite H. reflexivity. Qed.

(** On a context made by [_create_request_context], [_extract_query] returns
    the text, whatever the task and session ids. *)
Lemma extract_query_created (t : str) (a b : json) (ctx : context) :
  create_request_context (JStr t) a b = Ret ctx -> extract_query ctx = Ret (VStr t).
Proof.
  intros H. injection H as <-.
  destruct t as [|x t']; reflexivity.
Qed.

(** *** Rendering a response *)

Lemma has_cons (a : ascii) (s : str) :
  has_surrogate (a :: s) =
  match s with b :: _ => surrogate_lead a b | [] => false end || has_surrogate s.
Proof. destruct s; reflexivity. Qed.

Lemma lead_ascii_l (a b : ascii) : is_ascii a = true -> surrogate_lead a b = false.
Proof.
  unfold surrogate_lead, is_ascii. intros H. apply Nat.ltb_lt in H.
  destruct (code a =? 237) eqn:E; [apply Nat.eqb_eq in E; lia | reflexivity].
Qed.

Lemma lead_ascii_r (a b : ascii) : is_ascii b = true -> surrogate_lead a b = false.
Proof.
  unfold surrogate_lead, is_ascii, in_range. intros H. apply Nat.ltb_lt in H.
  destruct (code a =? 237); [|reflexivity].
  destruct (160 <=? code b) eqn:E; [apply Nat.leb_le in E; lia | reflexivity].
Qed.

(** A surrogate needs two non-ASCII bytes in a row, so ASCII text around a
    part neither adds nor hides one. *)
Lemma has_app_ascii_l (x y : str) :
  forallb is_ascii x = true -> has_surrogate (x ++ y) = has_surrogate y.
Proof.
  induction x as [|a x IH]; intros H; [reflexivity|].
  cbn [forallb] in H. apply andb_true_iff in H as [Ha Hx].
  cbn [app]. rewrite has_cons, <- (IH Hx).
  destruct (x ++ y) as [|b r]; [reflexivity|]. rewrite lead_ascii_l by exact Ha. reflexivity.
Qed.

Lemma has_app_ascii_r (x y : str) :
  Analysis.head_ascii y = true -> has_surrogate (x ++ y) = has_surrogate x || has_surrogate y.
Proof.
  intros Hy. induction x as [|a x IH]; [reflexivity|].
  cbn [app]. rewrite !has_cons, IH.
  destruct x as [|b x'].
  - destruct y as [|c y']; [reflexivity|]. cbn [Analysis.head_ascii] in Hy.
    cbn [app]. rewrite lead_ascii_r by exact Hy. reflexivity.
  - cbn [app]. rewrite orb_assoc. reflexivity.
Qed.

Lemma has_ascii (s : str) : forallb is_ascii s = true -> has_surrogate s = false.
Proof. intros H. rewrite <- (app_nil_r s), has_app_ascii_l by exact H. reflexivity. Qed.

Lemma ascii_cases (P : ascii -> Prop) : (forall n, n < 256 -> P (ascii_of_nat n)) -> forall c, P c.
Proof. intros H c. rewrite <- (ascii_nat_embedding c). apply H, nat_ascii_bounded. Qed.

Lemma escape_ok_all (c : ascii) : Analysis.escape_ok c = true.
Proof.
  revert c. apply ascii_cases. intros n Hn.
  assert (H : forallb (fun n => Analysis.escape_ok (ascii_of_nat n)) (seq 0 256) = true)
    by (vm_compute; reflexivity).
  rewrite forallb_forall in H. apply H, in_seq. lia.
Qed.

Lemma escape_byte_high (c : ascii) : is_ascii c = false -> escape_byte c = [c].
Proof.
  intros Hc. pose proof (escape_ok_all c) as H. unfold Analysis.escape_ok in H. rewrite Hc in H.
  destruct (escape_byte c) as [|d [|]]; try discriminate H.
  apply Ascii.eqb_eq in H. subst d. reflexivity.
Qed.

Lemma escape_byte_low (c : ascii) :
  is_ascii c = true -> exists d r, escape_byte c = d :: r /\ forallb is_ascii (d :: r) = true.
Proof.
  intros Hc. pose proof (escape_ok_all c) as H. unfold Analysis.escape_ok in H. rewrite Hc in H.
  apply andb_true_iff in H as [H1 H2].
  destruct (escape_byte c) as [|d r]; [discriminate H2 | eauto].
Qed.

Lemma has_escape (s : str) : has_surrogate (flat_map escape_byte s) = has_surrogate s.
Proof.
  induction s as [|a s IH]; [reflexivity|].
  cbn [flat_map]. destruct (is_ascii a) eqn:Ha.
  - destruct (escape_byte_low a Ha) as [d [r [E H1]]]. rewrite E.
    rewrite has_app_ascii_l by exact H1. rewrite IH, has_cons.
    destruct s; [reflexivity|]. rewrite lead_ascii_l by exact Ha. reflexivity.
  - rewrite (escape_byte_high a Ha). cbn [app]. rewrite !has_cons, IH. f_equal.
    destruct s as [|b s']; [reflexivity|]. cbn [flat_map].
    destruct (is_ascii b) eqn:Hb.
    + destruct (escape_byte_low b Hb) as [d [r [E H1]]]. rewrite E.
      cbn [forallb] in H1. apply andb_true_iff in H1 as [Hd _]. cbn [app].
      rewrite !lead_ascii_r by assumption. reflexivity.
    + rewrite (escape_byte_high b Hb). reflexivity.
Qed.

Lemma has_quote (s : str) : has_surrogate (quote s) = has_surrogate s.
Proof.
  unfold quote. change (dq_c :: ?r) with ([dq_c] ++ r).
  rewrite has_app_ascii_l by reflexivity.
  rewrite has_app_ascii_r by reflexivity. rewrite has_escape. apply orb_false_r.
Qed.

Lemma has_concat_comma (ds : list str) (y : str) :
  Analysis.head_ascii y = true ->
  has_surrogate (concat (py ",") ds ++ y) = existsb has_surrogate ds || has_surrogate y.
Proof.
  intros Hy. induction ds as [|d ds IH]; [reflexivity|].
  destruct ds as [|d2 ds'].
  - cbn [concat existsb]. rewrite has_app_ascii_r by exact Hy. rewrite orb_false_r. reflexivity.
  - change (concat (py ",") (d :: d2 :: ds')) with (d ++ py "," ++ concat (py ",") (d2 :: ds')).
    rewrite <- !app_assoc, has_app_ascii_r by reflexivity.
    rewrite has_app_ascii_l by reflexivity. rewrite IH.
    cbn [existsb]. rewrite !orb_assoc. reflexivity.
Qed.

Lemma existsb_map' {A B} (f : B -> bool) (g : A -> B) (l : list A) :
  existsb f (map g l) = existsb (fun x => f (g x)) l.
Proof. induction l as [|x l IH]; simpl; congruence. Qed.

Lemma has_dumps_str (s : str) : has_surrogate (dumps (JStr s)) = has_surrogate s.
Proof. apply has_quote. Qed.

Lemma has_dumps_arr (l : list json) :
  has_surrogate (dumps (JArr l)) = existsb (fun x => has_surrogate (dumps x)) l.
Proof.
  cbn [dumps]. rewrite has_app_ascii_l by reflexivity.
  rewrite has_concat_comma by reflexivity. rewrite existsb_map'. apply orb_false_r.
Qed.

Lemma has_dumps_obj (l : list (str * json)) :
  has_surrogate (dumps (JObj l)) =
  existsb (fun kv => has_surrogate (fst kv) || has_surrogate (dumps (snd kv))) l.
Proof.
  cbn [dumps]. rewrite has_app_ascii_l by reflexivity.
  rewrite has_concat_comma by reflexivity. rewrite existsb_map', orb_false_r.
  induction l as [|[k v] l IH]; [reflexivity|]. cbn [existsb fst snd]. rewrite IH. f_equal.
  rewrite has_app_ascii_r by reflexivity. rewrite has_quote, has_app_ascii_l by reflexivity.
  reflexivity.
Qed.

Lemma uint_ascii (u : Decimal.uint) : forallb is_ascii (py (NilEmpty.string_of_uint u)) = true.
Proof. induction u; simpl; first [reflexivity | exact IHu]. Qed.

Lemma z_decimal_ascii (z : Z) : forallb is_ascii (z_decimal z) = true.
Proof. unfold z_decimal. destruct (Z.to_int z) as [u|u]; simpl; exact (uint_ascii u). Qed.

Lemma has_dumps_int (z : Z) : has_surrogate (dumps (JNum (NInt z))) = false.
Proof. apply has_ascii, z_decimal_ascii. Qed.

Lemma renders_iff (j : json) : renders j = finite j && negb (has_surrogate (dumps j)).
Proof.
  unfold renders, json_response. destruct (finite j); [|reflexivity].
  cbv zeta. destruct (has_surrogate (dumps j)); reflexivity.
Qed.

Lemma json_response_ret (x a : json) : json_response x = Ret a -> a = x /\ renders x = true.
Proof.
  intros H. split; [|unfold renders; rewrite H; reflexivity].
  unfold json_response in H. destruct (finite x); [|discriminate].
  destruct (has_surrogate _); [discriminate | injection H as <-; reflexivity].
Qed.

(** Evaluate [has_surrogate] on the literals of a goal. *)
Ltac lit_has :=
  repeat match goal with
  | |- context [has_surrogate (py ?s)] =>
      let v := eval vm_compute in (has_surrogate (py s)) in
      change (has_surrogate (py s)) with v
  end.

Ltac has_simpl :=
  rewrite ?renders_iff; unfold jstr;
  repeat (rewrite ?has_dumps_obj, ?has_dumps_arr, ?has_dumps_str, ?has_dumps_int;
          cbn [existsb fst snd finite forallb]);
  lit_has; cbn [orb andb negb].

(** The answer of [_handle_tasks_send] renders exactly when the request id,
    the task and session ids and the response text do. *)
Lemma result_response_renders (jid tid sid : json) (text : str) :
  renders (result_response jid tid sid text) =
  renders jid && renders tid && renders sid && negb (has_surrogate text).
Proof.
  unfold result_response, text_json. has_simpl.
  destruct (finite jid), (finite tid), (finite sid), (has_surrogate (dumps jid)),
    (has_surrogate (dumps tid)), (has_surrogate (dumps sid)), (has_surrogate text); reflexivity.
Qed.

Lemma error_response_renders (jid : json) (code : Z) (msg : str) :
  renders (JObj [(py "jsonrpc", jstr "2.0"); (py "id", jid);
                 (py "error", JObj [(py "code", JNum (NInt code)); (py "message", JStr msg)])]) =
  renders jid && negb (has_surrogate msg).
Proof.
  has_simpl.
  destruct (finite jid), (has_surrogate (dumps jid)), (has_surrogate msg); reflexivity.
Qed.

Lemma result_message_error (jid : json) (code : Z) (msg : str) :
  result_message (error_response jid code msg) = None.
Proof.
  unfold error_response, json_response. destruct (finite _); [|reflexivity].
  cbv zeta. destruct (has_surrogate _); reflexivity.
Qed.

Lemma result_message_ocatch_raise (jid : json) (e : exc) :
  result_message (ocatch (Raise e)
    (fun e => error_response jid (-32603) (py "Execution error: " ++ exc_msg e))) = None.
Proof. apply result_message_error. Qed.

Lemma renders_uuid (s : str) : has_surrogate s = false -> renders (JStr s) = true.
Proof. intros H. rewrite renders_iff, has_dumps_str, H. reflexivity. Qed.

(** The [message] field of a [tasks/send] response depends only on the
    params' [message] (given a renderable [id] and [sessionId]). *)
Lemma tasks_send_message (ag : agent_ops) (u : nat -> str) (jid : json)
      (l : list (str * json)) :
  renders_field "id" l = true -> renders_field "sessionId" l = true ->
  has_surrogate (u 1) = false -> has_surrogate (u 2) = false ->
  result_message (handle_tasks_send (execute ag) u jid (JObj l)) =
  message_of ag jid (field "message" l).
Proof.
  intros Hid Hsid Hu1 Hu2. unfold handle_tasks_send, message_of, field. cbn [jget obind].
  set (tid := match assoc (py "id") l with Some v => v | None => JStr (u 1) end).
  set (s := match assoc (py "sessionId") l with Some v => v | None => JNull end).
  assert (Ht : renders tid = true).
  { unfold tid. unfold renders_field in Hid.
    destruct (assoc _ l); [exact Hid | exact (renders_uuid _ Hu1)]. }
  assert (Hs : renders (if jtruthy s then s else JStr (u 2)) = true).
  { unfold s. unfold renders_field in Hsid.
    destruct (assoc (py "sessionId") l);
      [destruct (jtruthy j); [exact Hsid | exact (renders_uuid _ Hu2)]
      | exact (renders_uuid _ Hu2)]. }
  set (sid := if jtruthy s then s else JStr (u 2)) in *.
  set (m := match assoc (py "message") l with Some v => v | None => JObj [] end).
  destruct (jget m "parts" (JArr [])) as [parts|e]; cbn [obind];
    [|apply result_message_ocatch_raise].
  destruct (scan_parts parts) as [tc|e]; cbn [obind];
    [|apply result_message_ocatch_raise].
  destruct tc as [| | | t | |]; cbn [create_request_context obind];
    try apply result_message_ocatch_raise.
  rewrite (execute_ext ag _ _
             (eq_trans (extract_query_created t tid sid _ eq_refl)
                       (eq_sym (extract_query_created t JNull JNull _ eq_refl)))).
  destruct (execute ag _) as [trace o].
  destruct o as [x|e]; cbn [obind]; [|apply result_message_ocatch_raise].
  set (text := response_text_of (events trace) []).
  assert (Hr : renders (result_response jid tid sid text) =
               renders (result_response jid JNull JNull text))
    by (rewrite !result_response_renders, Ht, Hs; reflexivity).
  rewrite <- Hr. unfold renders at 1.
  destruct (json_response (result_response jid tid sid text)) as [a|e] eqn:E; cbn [ocatch].
  - destruct (json_response_ret _ _ E) as [-> _]. reflexivity.
  - apply result_message_error.
Qed.

(** C1 *)
(** A [message/send] request is answered through [_handle_tasks_send]: for
    the same [message] params field, the [result.message] of the response to
    [message/send] is the one of the response to [tasks/send] (or both have
    none), for any generated uuids without a lone surrogate, whatever the
    other fields hold, as long as the [contextId], [id] and [sessionId]
    given can be rendered by [JSONResponse]: no [NaN] or [Infinity] and no
    string holding a lone surrogate. *)
Theorem message_send_as_tasks_send (ag : agent_ops) (u u' : nat -> str) (jid : json)
        (l1 l2 : list (str * json)) :
  (forall n, has_surrogate (u n) = false) -> (forall n, has_surrogate (u' n) = false) ->
  assoc (py "message") l1 = assoc (py "message") l2 ->
  renders_field "contextId" l1 = true ->
  renders_field "id" l2 = true -> renders_field "sessionId" l2 = true ->
  result_message (handle_message_send (execute ag) u jid (JObj l1)) =
  result_message (handle_tasks_send (execute ag) u' jid (JObj l2)).
Proof.
  intros Hu Hu' Hm Hc Hid Hsid.
  rewrite (tasks_send_message ag u' jid l2 Hid Hsid (Hu' 1) (Hu' 2)).
  unfold handle_message_send. cbn [jget obind].
  rewrite tasks_send_message.
  - unfold field at 2. rewrite <- Hm. reflexivity.
  - exact (renders_uuid _ (Hu 0)).
  - unfold renders_field in Hc.
    destruct (assoc (py "contextId") l1); [exact Hc | reflexivity].
  - exact (Hu 1).
  - exact (Hu 2).
Qed.

(** C1, counterexample: [json.loads] accepts a [NaN] [contextId];
    [message/send] copies it into [sessionId], the response cannot be
    rendered, and the client gets the -32603 error with no [result.message],
    while [tasks/send] with the same message is answered.  A [contextId]
    holding the lone surrogate U+D800 fails the same way, at the UTF-8
    encoding. *)
Lemma message_send_nan_context :
  handle_message_send (execute ok_agent) uuid_fixed (JNum (NInt 1))
    (JObj [(py "message", Samples.msg_tokyo); (py "contextId", JNum NNaN)]) =
    Ret (JObj [(py "jsonrpc", jstr "2.0"); (py "id", JNum (NInt 1));
               (py "error", JObj [(py "code", JNum (NInt (-32603)));
                                  (py "message", jstr "Execution error: Out of range float values are not JSON compliant")])]) /\
  result_message (handle_message_send (execute ok_agent) uuid_fixed (JNum (NInt 1))
    (JObj [(py "message", Samples.msg_tokyo); (py "contextId", JNum NNaN)])) = None /\
  result_message (handle_message_send (execute ok_agent) uuid_fixed (JNum (NInt 1))
    (JObj [(py "message", Samples.msg_tokyo);
           (py "contextId", JStr [ascii_of_nat 237; ascii_of_nat 160; ascii_of_nat 128])])) = None /\
  result_message (handle_tasks_send (execute ok_agent) uuid_fixed (JNum (NInt 1))
    (JObj [(py "message", Samples.msg_tokyo)])) = Some (message_json (py "ok")).
Proof. repeat split; vm_compute; reflexivity. Qed.

Lemma extract_query_first_hit_witness :
  extract_query (Ctx [(py "_user_text", VStr (py "Tokyo"))] None) = Ret (VStr (py "Tokyo")).
Proof.
  rewrite (proj1 (extract_query_first_hit (Ctx [(py "_user_text", VStr (py "Tokyo"))] None))).
  reflexivity.
Defined.

Lemma empty_query_help_witness :
  execute ok_agent (Ctx [(py "_user_text", VStr (py "   "))] None) =
  ([Print (debug_query (VStr (py "   "))); Enqueue help_message], Ret tt).
Proof. apply empty_query_help; reflexivity. Defined.

Lemma compare_rule_wins_witness :
  parse_intent (py "compare Rome with Oslo forecast") =
    (py "compare", [(py "city1", AStr (py "Rome")); (py "city2", AStr (py "Oslo forecast"))]).
Proof.
  rewrite (proj1 (compare_rule_wins (py "compare Rome with Oslo forecast")
    (match first_compare compare_patterns (py "compare Rome with Oslo forecast") with
     | Some m => m | None => MS [] [] [] end) ltac:(vm_compute; reflexivity))).
  vm_compute. reflexivity.
Defined.

Lemma bare_city_current_witness :
  parse_intent (py "Berlin") = (py "current", [(py "city", AStr (py "Berlin"))]).
Proof.
  apply (proj1 (bare_city_current (py "Berlin") (py "Berlin")
    ltac:(vm_compute; reflexivity) ltac:(vm_compute; reflexivity)
    ltac:(vm_compute; reflexivity) ltac:(discriminate) ltac:(vm_compute; lia))).
Defined.

Lemma message_send_as_tasks_send_witness :
  result_message (handle_message_send (execute ok_agent) uuid_fixed JNull
     (JObj [(py "message", JObj [(py "parts", JArr [JObj [(py "kind", jstr "text");
                                                       (py "text", jstr "Tokyo")]])]);
            (py "contextId", jstr "ctx-1")])) =
  result_message (handle_tasks_send (execute ok_agent) uuid_fixed JNull
     (JObj [(py "id", jstr "task-1"); (py "sessionId", JNull);
            (py "message", JObj [(py "parts", JArr [JObj [(py "kind", jstr "text");
                                                       (py "text", jstr "Tokyo")]])])])).
Proof. apply message_send_as_tasks_send; intros; reflexivity. Defined.

(** C10, counterexample: a part with ["type": "file"] and ["kind": "text"]
    is not taken, since ["kind"] is read only when ["type"] is falsy. *)
Lemma part_scan_type_shadows_kind :
  scan_parts (JArr [JObj [(py "type", jstr "file"); (py "kind", jstr "text");
                          (py "text", jstr "hi")]]) = Ret (jstr "") /\
  claim_part_text [JObj [(py "type", jstr "file"); (py "kind", jstr "text");
                         (py "text", jstr "hi")]] = jstr "hi".
Proof. split; vm_compute; reflexivity. Qed.

(** C10 *)
(** For a list of dict parts, the part scan of [tasks/send] returns the
    ["text"] field (default [""]) of the first part whose effective tag (its
    ["type"] when truthy, else its ["kind"]) equals ["text"], and [""] when
    there is none: later parts are never read. *)
Theorem part_scan_first_tagged (parts : list json) :
  forallb is_obj parts = true ->
  scan_parts (JArr parts) = Ret (amended_part_text parts).
Proof.
  unfold scan_parts, amended_part_text. cbn [jiter obind].
  induction parts as [|p ps IH]; intros H; [reflexivity|].
  cbn [forallb] in H. apply andb_true_iff in H as [Hp Hps].
  destruct p as [| | | | |l]; try discriminate Hp.
  cbn [scan_part_list find jget obind].
  unfold part_tag, field_or.
  destruct (jtruthy _); cbn [obind];
    (destruct (json_eqb_text _); [reflexivity | exact (IH Hps)]).
Qed.

Lemma part_scan_first_tagged_witness :
  scan_parts (JArr [JObj [(py "kind", jstr "text"); (py "text", JStr [])];
                    JObj [(py "type", jstr "text"); (py "text", jstr "later")]]) = Ret (jstr "").
Proof. rewrite part_scan_first_tagged; reflexivity. Defined.

(** C4 *)
(** [json.loads] accepts [NaN]: for the body
    [{"jsonrpc": "2.0", "id": NaN, "method": "foo/bar"}] the method-not-found
    response cannot be rendered, the [except Exception] fallback renders the
    same id again and fails again, and the [ValueError] escapes
    [handle_request] instead of a JSON-RPC error object. *)
Theorem nan_id_escapes (run : context -> M unit) (u : nat -> str) :
  handle_request run u
    (Ret (JObj [(py "jsonrpc", jstr "2.0"); (py "id", JNum NNaN);
                (py "method", jstr "foo/bar")])) =
  Raise (Exc (py "ValueError") (py "Out of range float values are not JSON compliant")).
Proof. vm_compute. reflexivity. Qed.


Lemma mtry_total {A} (m : M A) (h : exc -> M A) :
  (forall e, exists a, snd (h e) = Ret a) -> exists a, snd (mtry m h) = Ret a.
Proof.
  intros Hh. destruct m as [t [a|e]]; simpl; [eauto|].
  destruct (Hh e) as [a Ha]. destruct (h e) as [t' o]. simpl in *. subst. eauto.
Qed.

Lemma not_found_differs (city msg : str) : not_found_current city <> error_current city msg.
Proof.
  unfold not_found_current, error_current. intros H.
  apply app_inv_head in H. simpl in H. discriminate H.
Qed.



(** *** Soundness of the matcher against [lang] *)

Import Analysis.

Lemma counts_in (g : bool) (m k n : nat) : In n (counts g m k) -> m <= n <= k.
Proof.
  unfold counts. destruct (k <? m) eqn:E; [intros []|].
  apply Nat.ltb_ge in E. intros H.
  destruct g; [apply in_rev in H|];
    apply in_seq in H; lia.
Qed.

Lemma lead_le (icase : bool) (p : ascii -> bool) (l : str) : lead icase p l <= length l.
Proof. induction l as [|c l IH]; simpl; [lia|]. destruct (cmatch _ _ _); simpl; lia. Qed.

Lemma lead_firstn (icase : bool) (p : ascii -> bool) (l : str) (n : nat) :
  n <= lead icase p l -> Forall (fun c => cmatch icase p c = true) (firstn n l).
Proof.
  revert n. induction l as [|c l IH]; intros n H; simpl in *.
  - destruct n; constructor.
  - destruct n; [constructor|]. simpl.
    destruct (cmatch icase p c) eqn:Hc; [|lia].
    constructor; [exact Hc | apply IH; lia].
Qed.

Lemma mr_sound (icase : bool) (r : regex) :
  forall s s', In s' (mr icase r s) ->
  exists u, ms_rest s = u ++ ms_rest s' /\ lang icase r u.
Proof.
  induction r as [p|r1 IH1 r2 IH2|r1 IH1 r2 IH2|r1 IH1|p m g|n r1 IH1| | | ];
    intros [b rest caps] s' H; simpl in H.
  - destruct rest as [|c t]; [contradiction|].
    destruct (cmatch icase p c) eqn:Hc; [|contradiction].
    destruct H as [<-|[]]. exists [c]. split; [reflexivity | constructor; exact Hc].
  - apply in_flat_map in H as [s1 [H1 H2]].
    destruct (IH1 _ _ H1) as [u1 [E1 L1]]. destruct (IH2 _ _ H2) as [u2 [E2 L2]].
    exists (u1 ++ u2). split; [simpl in *; rewrite E1, E2, app_assoc; reflexivity|].
    constructor; assumption.
  - apply in_app_or in H as [H|H].
    + destruct (IH1 _ _ H) as [u [E L]]. exists u. split; [exact E | apply LAltL; exact L].
    + destruct (IH2 _ _ H) as [u [E L]]. exists u. split; [exact E | apply LAltR; exact L].
  - apply in_app_or in H as [H|[<-|[]]].
    + destruct (IH1 _ _ H) as [u [E L]]. exists u. split; [exact E | apply LOptSome; exact L].
    + exists []. split; [reflexivity | apply LOptNone].
  - apply in_map_iff in H as [k [<- Hk]]. apply counts_in in Hk.
    exists (firstn k rest). simpl. split; [symmetry; apply firstn_skipn|].
    constructor.
    + rewrite firstn_length_le; [lia|]. pose proof (lead_le icase p rest). lia.
    + apply lead_firstn. lia.
  - apply in_map_iff in H as [s1 [<- H1]].
    destruct (IH1 _ _ H1) as [u [E L]]. exists u. split; [exact E | constructor; exact L].
  - destruct rest as [|c [|c' t]].
    + destruct H as [<-|[]]. exists []. split; [reflexivity | constructor].
    + destruct (Ascii.eqb c _); [|contradiction].
      destruct H as [<-|[]]. exists []. split; [reflexivity | constructor].
    + contradiction.
  - destruct (xorb _ _); [|contradiction].
    destruct H as [<-|[]]. exists []. split; [reflexivity | constructor].
  - destruct H as [<-|[]]. exists []. split; [reflexivity | constructor].
Qed.

(** Whatever [re.search] finds is a [lang] text somewhere in the input. *)
Lemma search_at_lang (icase : bool) (r : regex) (x : str) :
  forall b m, search_at icase r b x = Some m ->
  exists a u y, x = a ++ u ++ y /\ lang icase r u.
Proof.
  induction x as [|c x IH]; intros b m H; simpl in H.
  - destruct (mr icase r (MS b [] [])) as [|s' l] eqn:E; [discriminate|].
    destruct (mr_sound icase r (MS b [] []) s') as [u [Eu L]]; [rewrite E; left; reflexivity|].
    exists [], u, (ms_rest s'). split; [exact Eu | exact L].
  - destruct (mr icase r (MS b (c :: x) [])) as [|s' l] eqn:E.
    + destruct (IH _ _ H) as [a [u [y [Ex L]]]].
      exists (c :: a), u, y. split; [simpl; rewrite Ex; reflexivity | exact L].
    + destruct (mr_sound icase r (MS b (c :: x) []) s') as [u [Eu L]];
        [rewrite E; left; reflexivity|].
      exists [], u, (ms_rest s'). split; [exact Eu | exact L].
Qed.

(** *** Substrings a match needs *)

Lemma pprefix_app (ps : list (ascii -> bool)) (u y : str) :
  pprefix ps u = true -> pprefix ps (u ++ y) = true.
Proof.
  revert u. induction ps as [|p ps IH]; intros [|c u] H; simpl in *; try easy.
  apply andb_true_iff in H as [H1 H2]. rewrite H1. apply IH, H2.
Qed.

Lemma pprefix_cat (ps qs : list (ascii -> bool)) (u v : str) :
  pprefix ps u = true -> length u = length ps -> pprefix qs v = true ->
  pprefix (ps ++ qs) (u ++ v) = true.
Proof.
  revert u. induction ps as [|p ps IH]; intros [|c u] H Hl Hv; simpl in *; try easy.
  apply andb_true_iff in H as [H1 H2]. rewrite H1. apply IH; [exact H2 | lia | exact Hv].
Qed.

Lemma pcontains_prefix (ps : list (ascii -> bool)) (u : str) :
  pprefix ps u = true -> pcontains ps u = true.
Proof. destruct u; simpl; intros ->; reflexivity. Qed.

Lemma pcontains_app_r (ps : list (ascii -> bool)) (u y : str) :
  pcontains ps u = true -> pcontains ps (u ++ y) = true.
Proof.
  induction u as [|c u IH]; simpl; intros H.
  - destruct ps; [destruct y; reflexivity | discriminate].
  - apply orb_true_iff in H as [H|H].
    + pose proof (pprefix_app ps (c :: u) y H) as H'. simpl in H'. rewrite H'. reflexivity.
    + rewrite (IH H). apply orb_true_r.
Qed.

Lemma pcontains_app_l (ps : list (ascii -> bool)) (a u : str) :
  pcontains ps u = true -> pcontains ps (a ++ u) = true.
Proof.
  induction a as [|c a IH]; simpl; intros H; [exact H|].
  rewrite (IH H). apply orb_true_r.
Qed.

Lemma pprefix_avoid (ps : list (ascii -> bool)) (pl : ascii -> bool) (y : str) :
  Forall (fun c => pl c = false) y -> pprefix (ps ++ [pl]) y = false.
Proof.
  revert y. induction ps as [|p ps IH]; intros [|c y] Hy; simpl; try reflexivity.
  - inversion Hy; subst. rewrite H1. reflexivity.
  - inversion Hy; subst. rewrite IH; [apply andb_false_r | exact H2].
Qed.

Lemma pprefix_app_avoid (ps : list (ascii -> bool)) (pl : ascii -> bool) (x w : str) :
  Forall (fun c => pl c = false) w ->
  pprefix (ps ++ [pl]) (x ++ w) = pprefix (ps ++ [pl]) x.
Proof.
  intros Hw. revert x. induction ps as [|p ps IH]; intros [|c x]; simpl.
  - destruct w as [|c w]; [reflexivity|]. inversion Hw; subst. rewrite H1. reflexivity.
  - reflexivity.
  - destruct w as [|c w]; [reflexivity|]. inversion Hw; subst.
    rewrite pprefix_avoid; [apply andb_false_r | exact H2].
  - rewrite IH. reflexivity.
Qed.

(** A needle ending in a test no character of [w] passes occurs in
    [pre ++ w] only if it occurs in [pre]. *)
Lemma pcontains_app_avoid (ps : list (ascii -> bool)) (pl : ascii -> bool) (pre w : str) :
  Forall (fun c => pl c = false) w ->
  pcontains (ps ++ [pl]) (pre ++ w) = pcontains (ps ++ [pl]) pre.
Proof.
  intros Hw. induction pre as [|c pre IH]; simpl.
  - induction w as [|c w IHw]; simpl; [destruct ps; reflexivity|].
    inversion Hw; subst. rewrite (pprefix_avoid ps pl (c :: w) Hw), IHw; [reflexivity | exact H2].
  - rewrite IH. pose proof (pprefix_app_avoid ps pl (c :: pre) w Hw) as H. simpl in H.
    rewrite H. reflexivity.
Qed.

Lemma lang_seq_inv (icase : bool) (r1 r2 : regex) (u : str) :
  lang icase (RSeq r1 r2) u -> exists u1 u2, u = u1 ++ u2 /\ lang icase r1 u1 /\ lang icase r2 u2.
Proof. intros H. inversion H; subst. eauto. Qed.

Lemma lang_alt_inv (icase : bool) (r1 r2 : regex) (u : str) :
  lang icase (RAlt r1 r2) u -> lang icase r1 u \/ lang icase r2 u.
Proof. intros H. inversion H; subst; auto. Qed.

Lemma lang_rep1_inv (icase : bool) (p : ascii -> bool) (g : bool) (u : str) :
  lang icase (RRep p 1 g) u ->
  (exists c u', u = c :: u' /\ cmatch icase p c = true) /\
  (exists u' c, u = u' ++ [c] /\ cmatch icase p c = true).
Proof.
  intros H. inversion H; subst.
  destruct u as [|c u']; simpl in *; [lia|]. split.
  - inversion H5; subst. eauto.
  - destruct (exists_last (l := c :: u') ltac:(discriminate)) as [u'' [c' E]].
    rewrite E in H5. apply Forall_app in H5 as [_ H5]. inversion H5; subst.
    exists u'', c'. split; [exact E | assumption].
Qed.

Lemma lang_lit (icase : bool) (l : str) (u : str) :
  lang icase (lit_l l) u ->
  pprefix (map (fun k => cmatch icase (Ascii.eqb k)) l) u = true /\ length u = length l.
Proof.
  revert u. induction l as [|k l IH]; intros u H.
  - inversion H; subst. split; reflexivity.
  - destruct l as [|k' l'].
    + inversion H as [p c Hc| | | | | | | | | |]; subst. simpl. rewrite Hc. split; reflexivity.
    + apply lang_seq_inv in H as [u1 [u2 [-> [H1 H2]]]].
      inversion H1 as [p c Hc| | | | | | | | | |]; subst. destruct (IH u2 H2) as [IH1 IH2].
      replace (map _ (k :: k' :: l'))
        with (cmatch icase (Ascii.eqb k) :: map (fun k => cmatch icase (Ascii.eqb k)) (k' :: l'))
        by reflexivity.
      cbn [app pprefix]. rewrite Hc, IH1. split; [reflexivity | simpl in *; lia].
Qed.

Lemma lit_needle (k : string) (u v : str) :
  lang true (lit k) u -> pprefix [sp_i] v = true ->
  pprefix (needle k ++ [sp_i]) (u ++ v) = true.
Proof.
  intros H Hv. apply lang_lit in H as [P L].
  apply pprefix_cat; [exact P | rewrite L; unfold needle; rewrite length_map; reflexivity | exact Hv].
Qed.

(** Every match of a compare pattern contains one of [cmp_needles]. *)
Lemma compare_needle (r : regex) (u : str) :
  In r compare_patterns -> lang true r u ->
  exists nd, In nd cmp_needles /\ pcontains nd u = true.
Proof.
  intros Hr Hu. simpl in Hr. destruct Hr as [<-|[<-|[<-|[]]]].
  - unfold compare_pat1 in Hu. cbn [seqs] in Hu.
    apply lang_seq_inv in Hu as [u1 [u2 [-> [H1 H2]]]].
    apply lang_seq_inv in H2 as [u3 [u4 [-> [H3 _]]]].
    apply lang_rep1_inv in H3 as [[c [u' [-> Hc]]] _].
    exists (needle "compare" ++ [sp_i]). split; [simpl; auto|].
    apply pcontains_prefix, lit_needle; [exact H1|]. simpl. unfold sp_i. rewrite Hc. reflexivity.
  - unfold compare_pat2 in Hu. cbn [seqs alts] in Hu.
    apply lang_seq_inv in Hu as [g [u2 [-> [_ H2]]]].
    apply lang_seq_inv in H2 as [s1 [u3 [-> [H3 H4]]]].
    apply lang_seq_inv in H4 as [k [u5 [-> [H5 H6]]]].
    apply lang_seq_inv in H6 as [s2 [t [-> [H7 _]]]].
    apply lang_rep1_inv in H3 as [_ [s1' [x [-> Hx]]]].
    apply lang_rep1_inv in H7 as [[y [s2' [-> Hy]]] _].
    assert (Hv : pprefix [sp_i] ((y :: s2') ++ t) = true).
    { simpl. unfold sp_i. rewrite Hy. reflexivity. }
    replace (g ++ (s1' ++ [x]) ++ k ++ (y :: s2') ++ t)
      with ((g ++ s1') ++ (x :: (k ++ (y :: s2') ++ t)))
      by (rewrite <- !app_assoc; reflexivity).
    apply lang_alt_inv in H5 as [H5|H5].
    + exists ((sp_i :: needle "vs") ++ [sp_i]). split; [simpl; auto|].
      apply pcontains_app_l, pcontains_prefix. simpl. unfold sp_i at 1. rewrite Hx.
      apply (lit_needle "vs" k _ H5 Hv).
    + exists ((sp_i :: needle "versus") ++ [sp_i]). split; [simpl; auto|].
      apply pcontains_app_l, pcontains_prefix. simpl. unfold sp_i at 1. rewrite Hx.
      apply (lit_needle "versus" k _ H5 Hv).
  - unfold compare_pat3 in Hu. cbn [seqs] in Hu.
    apply lang_seq_inv in Hu as [u1 [u2 [-> [H1 H2]]]].
    apply lang_seq_inv in H2 as [u3 [u4 [-> [H3 _]]]].
    apply lang_rep1_inv in H3 as [[c [u' [-> Hc]]] _].
    exists (needle "weather" ++ [sp_i]). split; [simpl; auto|].
    apply pcontains_prefix, lit_needle; [exact H1|]. simpl. unfold sp_i. rewrite Hc. reflexivity.
Qed.

(** No compare pattern matches a text containing none of [cmp_needles]. *)
Lemma no_compare (q : str) :
  forallb (fun nd => negb (pcontains nd q)) cmp_needles = true ->
  first_compare compare_patterns q = None.
Proof.
  intros H.
  assert (Hs : forall r, In r compare_patterns -> search true r q = None).
  { intros r Hr. destruct (search true r q) as [m|] eqn:E; [|reflexivity]. exfalso.
    destruct (search_at_lang _ _ _ _ _ E) as [a [u [y [Eq Hu]]]].
    destruct (compare_needle r u Hr Hu) as [nd [Hnd Hc]].
    rewrite forallb_forall in H. specialize (H nd Hnd).
    rewrite Eq, (pcontains_app_l _ a _ (pcontains_app_r _ _ y Hc)) in H. discriminate. }
  unfold first_compare, compare_patterns.
  rewrite (Hs compare_pat1), (Hs compare_pat2), (Hs compare_pat3) by (simpl; auto).
  reflexivity.
Qed.

(** What a letter does and does not match. *)
Lemma alpha_facts c : is_alpha c = true ->
  cmatch true sp c = false /\ cmatch true alpha_sp c = true /\ cmatch true is_upper c = true /\
  cmatch true (Ascii.eqb ",") c = false /\ cmatch true (Ascii.eqb "?") c = false /\
  Ascii.eqb c (ascii_of_nat 10) = false /\ is_space c = false /\ is_space (lower_c c) = false /\ is_alpha (lower_c c) = true.
Proof. destruct c as [[] [] [] [] [] [] [] []]; intro H; vm_compute in H |- *; first [discriminate H | repeat split]. Qed.

(** IGNORECASE comparison with a lowercase letter of the temporal words. *)
Lemma ci_lower k c : In k (py "todaymrwhisnex") -> cmatch true (Ascii.eqb k) c = Ascii.eqb k (lower_c c).
Proof.
  intro Hk.
  assert (H : forallb (fun k => Bool.eqb (cmatch true (Ascii.eqb k) c) (Ascii.eqb k (lower_c c))) (py "todaymrwhisnex") = true)
    by (destruct c as [[] [] [] [] [] [] [] []]; vm_compute; reflexivity).
  rewrite forallb_forall in H. apply Bool.eqb_prop, H, Hk.
Qed.

(** A literal fails where the lowered text does not start with it. *)
Lemma lit_fail (kw : str) : forall s, kw <> [] ->
  Forall (fun k => In k (py "todaymrwhisnex")) kw ->
  prefixb kw (lower (ms_rest s)) = false -> mr true (lit_l kw) s = [].
Proof.
  induction kw as [|k l IH]; intros [b r caps] Hne Hf Hp; [congruence|].
  inversion Hf as [|? ? Hk Hl]; subst. simpl in Hp.
  destruct r as [|c r'].
  - destruct l; reflexivity.
  - simpl in Hp.
    assert (E : mr true (chr k) (MS b (c :: r') caps) =
                if Ascii.eqb k (lower_c c) then [MS (c :: b) r' caps] else [])
      by (simpl; rewrite ci_lower by exact Hk; reflexivity).
    destruct l as [|k' l'].
    + change (lit_l [k]) with (chr k). rewrite E. simpl in Hp.
      rewrite andb_true_r in Hp. rewrite Hp. reflexivity.
    + change (lit_l (k :: k' :: l')) with (RSeq (chr k) (lit_l (k' :: l'))).
      cbn [mr]. rewrite E. destruct (Ascii.eqb k (lower_c c)); [|reflexivity].
      simpl in Hp. cbn [flat_map]. rewrite app_nil_r. apply IH; [congruence|exact Hl|exact Hp].
Qed.

Lemma temporal_lits kw : In kw temporal_words ->
  kw <> [] /\ Forall (fun k => In k (py "todaymrwhisnex")) kw.
Proof.
  intros H. split.
  - intros ->. simpl in H. repeat (destruct H as [H|H]; [discriminate|]); exact H.
  - apply Forall_forall. intros k Hk.
    simpl in H. repeat (destruct H as [<-|H]; [simpl in Hk; simpl; tauto|]); destruct H.
Qed.

(** The tail of the first city pattern fails before a letter that starts
    no temporal word. *)
Lemma tail_fail_letter (c : ascii) (r b : str) caps :
  is_alpha c = true ->
  forallb (fun kw => negb (prefixb kw (lower (c :: r)))) temporal_words = true ->
  mr true city_tail (MS b (c :: r) caps) = [].
Proof.
  intros Hc Ht. destruct (alpha_facts c Hc) as (H1 & H2 & H3 & H4 & H5 & H6 & H7 & H8 & H9).
  rewrite forallb_forall in Ht.
  assert (L : forall kw, In kw temporal_words -> mr true (lit_l kw) (MS b (c :: r) caps) = []).
  { intros kw Hkw. destruct (temporal_lits kw Hkw) as [Hn Hf]. apply lit_fail; [exact Hn|exact Hf|].
    apply negb_true_iff, Ht, Hkw. }
  unfold city_tail, country_suffix. cbn [seqs alts].
  remember (lit "today") as t1. remember (lit "tomorrow") as t2.
  remember (lit "this") as t3. remember (lit "next") as t4.
  simpl. rewrite H1. simpl. rewrite H4. simpl. rewrite H1. simpl. rewrite H5.
  change (advance (MS b (c :: r) caps) 0) with (MS b (c :: r) caps).
  subst t1 t2 t3 t4. unfold lit.
  rewrite !L by (unfold temporal_words; simpl; auto 10).
  destruct r; [rewrite H6|]; reflexivity.
Qed.

(** At the end of the text the tail matches the empty string. *)
Lemma tail_end b caps : mr true city_tail (MS b [] caps) = [MS b [] caps].
Proof. reflexivity. Qed.

(** Before [", "] and two letters the tail captures them as group 2. *)
Lemma tail_cc (a a' : ascii) b caps :
  is_alpha a = true -> is_alpha a' = true ->
  exists s l, mr true city_tail (MS b [","%char; " "%char; a; a'] caps) = s :: l /\
              ms_caps s = (2, [a; a']) :: caps.
Proof.
  intros Ha Ha'.
  destruct (alpha_facts a Ha) as (A1 & A2 & A3 & _).
  destruct (alpha_facts a' Ha') as (B1 & B2 & B3 & _).
  unfold city_tail, country_suffix. cbn [seqs alts].
  remember (lit "today") as t1. remember (lit "tomorrow") as t2.
  remember (lit "this") as t3. remember (lit "next") as t4.
  simpl. rewrite A1. simpl. rewrite A3. simpl. rewrite B3. simpl.
  eexists. eexists. split; reflexivity.
Qed.

Lemma lead_all (i : bool) (p : ascii -> bool) (w post : str) :
  Forall (fun c => cmatch i p c = true) w -> lead i p (w ++ post) = length w + lead i p post.
Proof. induction 1 as [|c w' Hc _ IH]; [reflexivity|]. simpl. rewrite Hc, IH. reflexivity. Qed.

(** The first city pattern after [pre_kw] and one space: the lazy group
    tries every prefix of the letters [w], shortest first. *)
Lemma pat1_group (pre_kw b w post : str) :
  (forall x, mr true in_for_at (MS b (pre_kw ++ x) []) = [MS (rev pre_kw ++ b) x []]) ->
  w <> [] -> forallb is_alpha w = true -> lead true alpha_sp post = 0 ->
  mr true city_pat1 (MS b (pre_kw ++ " "%char :: w ++ post) []) =
  flat_map (mr true city_tail) (map (city_state pre_kw b w post) (seq 1 (length w))).
Proof.
  intros Hin Hne Hw Hpost.
  assert (Hf : Forall (fun c => is_alpha c = true) w) by (apply Forall_forall, forallb_forall, Hw).
  change city_pat1 with (RSeq in_for_at (RSeq (RRep sp 1 true) (RSeq (RGroup 1 (RRep alpha_sp 1 false)) city_tail))).
  cbn [mr]. rewrite Hin. cbn [flat_map ms_rest].
  replace (lead true sp (" "%char :: w ++ post)) with 1.
  2:{ destruct w as [|c w']; [congruence|]. simpl. inversion Hf; subst.
      destruct (alpha_facts c) as [E _]; [assumption|]. rewrite E. reflexivity. }
  change (map (advance (MS (rev pre_kw ++ b) (" "%char :: w ++ post) [])) (counts true 1 1))
    with [MS (" "%char :: rev pre_kw ++ b) (w ++ post) []].
  cbn [flat_map ms_rest]. rewrite app_nil_r.
  rewrite lead_all, Hpost, Nat.add_0_r.
  2:{ eapply Forall_impl; [|exact Hf]. intros c Hc. apply (alpha_facts c Hc). }
  replace (counts false 1 (length w)) with (seq 1 (length w)).
  2:{ destruct w; [congruence|]. unfold counts. simpl length. cbn [Nat.ltb Nat.leb]. f_equal. lia. }
  rewrite app_nil_r. f_equal. rewrite map_map. apply map_ext_in. intros k Hk. apply in_seq in Hk.
  unfold city_state, advance, set_cap. cbn [ms_rest ms_before ms_caps].
  rewrite length_skipn, length_app, firstn_app, skipn_app.
  replace (k - length w) with 0 by lia. rewrite firstn_O, skipn_O, app_nil_r.
  replace (length w + length post - (length w + length post - k)) with k by lia.
  rewrite firstn_app. replace (k - length w) with 0 by lia. rewrite firstn_O, app_nil_r.
  reflexivity.
Qed.

Lemma prefixb_stop (kw x post : str) :
  prefixb kw x = false -> (forall c p', post = c :: p' -> ~ In c kw) ->
  prefixb kw (x ++ post) = false.
Proof.
  revert x. induction kw as [|k l IH]; intros x Hx Hp; [discriminate|].
  destruct x as [|y x'].
  - destruct post as [|c p']; [reflexivity|]. simpl.
    destruct (Ascii.eqb_spec k c) as [->|]; [|reflexivity].
    exfalso. apply (Hp c p' eq_refl). left. reflexivity.
  - simpl in Hx |- *. destruct (Ascii.eqb k y); [|reflexivity]. simpl in Hx |- *.
    apply IH; [exact Hx|]. intros c p' E Hc. apply (Hp c p' E). right. exact Hc.
Qed.

Lemma flat_map_nil {A B} (f : A -> list B) (l : list A) :
  (forall x, In x l -> f x = []) -> flat_map f l = [].
Proof.
  induction l as [|x l IH]; intros H; [reflexivity|]. simpl.
  rewrite H by (left; reflexivity). apply IH. intros y Hy. apply H. right. exact Hy.
Qed.

Lemma temporal_no_comma kw : In kw temporal_words -> ~ In ","%char kw.
Proof.
  intros Hkw. simpl in Hkw.
  repeat (destruct Hkw as [<-|Hkw]; [simpl; intuition discriminate|]). destruct Hkw.
Qed.

(** For a one-word city the only prefix that lets the tail match is the
    whole word. *)
Lemma pat1_city (pre_kw b w post : str) :
  (forall x, mr true in_for_at (MS b (pre_kw ++ x) []) = [MS (rev pre_kw ++ b) x []]) ->
  city_word w = true -> (post = [] \/ exists p', post = ","%char :: p') ->
  mr true city_pat1 (MS b (pre_kw ++ " "%char :: w ++ post) []) =
  mr true city_tail (MS (rev w ++ " "%char :: rev pre_kw ++ b) post [(1, w)]) ++ [].
Proof.
  intros Hin Hw Hpost. unfold city_word in Hw.
  apply andb_prop in Hw as [Hw Ht]. apply andb_prop in Hw as [Hl Ha].
  apply Nat.ltb_lt in Hl.
  assert (Hp0 : lead true alpha_sp post = 0) by (destruct Hpost as [->|[p' ->]]; reflexivity).
  rewrite (pat1_group pre_kw b w post Hin) by (auto; intros ->; simpl in Hl; lia).
  rewrite forallb_forall in Ht.
  destruct (length w) as [|m] eqn:Lw; [lia|].
  rewrite seq_S, map_app, flat_map_app. cbn [map flat_map].
  rewrite (flat_map_nil _ (map (city_state pre_kw b w post) (seq 1 m))).
  2:{ intros st Hst. apply in_map_iff in Hst as [k [<- Hk]]. apply in_seq in Hk.
      unfold city_state, set_cap. cbn [ms_before ms_rest ms_caps].
      destruct (skipn k w) as [|c r] eqn:E.
      { pose proof (length_skipn k w) as L. rewrite E in L. simpl in L. lia. }
      rewrite <- (firstn_skipn k w), forallb_app, E in Ha. apply andb_prop in Ha as [_ Ha].
      simpl in Ha. apply andb_prop in Ha as [Hc _].
      apply tail_fail_letter; [exact Hc|]. apply forallb_forall. intros kw Hkw.
      assert (Hk' : In k (seq 1 (S m))) by (apply in_seq; lia).
      specialize (Ht k Hk'). apply negb_true_iff in Ht. unfold temporal_at in Ht.
      rewrite E in Ht. apply negb_true_iff.
      change (prefixb kw (lower ((c :: r) ++ post)) = false). unfold lower. rewrite map_app.
      apply prefixb_stop.
      - destruct (prefixb kw (map lower_c (c :: r))) eqn:P; [|reflexivity].
        assert (X : existsb (fun kw0 => prefixb kw0 (lower (c :: r))) temporal_words = true)
          by (apply existsb_exists; exists kw; auto).
        rewrite X in Ht. discriminate.
      - intros c' p'' Ep Hc'. destruct Hpost as [->|[p' ->]]; [discriminate|].
        injection Ep as <- _. exact (temporal_no_comma kw Hkw Hc'). }
  unfold city_state. replace (1 + m) with (length w) by lia. rewrite firstn_all, skipn_all. reflexivity.
Qed.

Lemma search_at_hit (icase : bool) (r : regex) (b x : str) (s : mstate) (l : list mstate) :
  mr icase r (MS b x []) = s :: l -> search_at icase r b x = Some s.
Proof. intros H. destruct x; simpl; rewrite H; reflexivity. Qed.

(** [re.search] of the first city pattern in [pre ++ pre_kw ++ " " ++ w ++ post]
    when no match starts inside [pre]. *)
Lemma search_city (pre pre_kw w post : str) (s : mstate) (l : list mstate) :
  (forall x, search_at true city_pat1 [] (pre ++ x) = search_at true city_pat1 (rev pre) x) ->
  (forall x, mr true in_for_at (MS (rev pre) (pre_kw ++ x) []) = [MS (rev pre_kw ++ rev pre) x []]) ->
  city_word w = true -> (post = [] \/ exists p', post = ","%char :: p') ->
  mr true city_tail (MS (rev w ++ " "%char :: rev pre_kw ++ rev pre) post [(1, w)]) = s :: l ->
  search true city_pat1 (pre ++ pre_kw ++ " "%char :: w ++ post) = Some s.
Proof.
  intros Hskip Hin Hw Hpost Ht. unfold search. rewrite Hskip.
  apply (search_at_hit _ _ _ _ _ (l ++ [])). rewrite (pat1_city _ _ _ _ Hin Hw Hpost), Ht. reflexivity.
Qed.

(** No match of the first city pattern starts inside ["weather "]. *)
Lemma skip_weather x :
  search_at true city_pat1 [] (py "weather " ++ x) = search_at true city_pat1 (rev (py "weather ")) x.
Proof. reflexivity. Qed.

Lemma in_at_in b x :
  mr true in_for_at (MS b (py "in" ++ x) []) = [MS (rev (py "in") ++ b) x []].
Proof. reflexivity. Qed.

Lemma in_at_for b x :
  mr true in_for_at (MS b (py "for" ++ x) []) = [MS (rev (py "for") ++ b) x []].
Proof. reflexivity. Qed.

Lemma lstrip_head (s : str) : (forall c s', s = c :: s' -> is_space c = false) -> lstrip s = s.
Proof. destruct s as [|c s']; intros H; [reflexivity|]. simpl. rewrite (H c s' eq_refl). reflexivity. Qed.

Lemma strip_alpha (w : str) : forallb is_alpha w = true -> strip w = w.
Proof.
  intros Hw. unfold strip.
  assert (Hr : forallb is_alpha (rev w) = true).
  { apply forallb_forall. intros c Hc. apply (proj1 (forallb_forall _ _) Hw), in_rev, Hc. }
  assert (K : forall s, forallb is_alpha s = true -> lstrip s = s).
  { intros s Hs. apply lstrip_head. intros c s' ->. simpl in Hs. apply andb_prop in Hs as [Hc _].
    apply (alpha_facts c Hc). }
  rewrite (K w Hw), (K (rev w) Hr). apply rev_involutive.
Qed.

(** C7, counterexample: in a longer text an earlier [at] followed by a space
    starts the first city pattern, so the text before ["weather in"] becomes
    part of the city. *)
Lemma extract_city_earlier_at :
  extract_city (py "Look at the weather in Paris, FR") = Some (py "the weather in Paris,FR").
Proof. vm_compute. reflexivity. Qed.

(** C7 (amended): for a text that is exactly ["weather in <City>, <CC>"],
    where <City> is one word of ASCII letters in which no temporal word
    (today, tomorrow, this, next) starts after the first letter and <CC> is
    two ASCII letters, [_extract_city] returns ["<City>,<CC>"]; for the text
    ["weather in <City>"] it returns ["<City>"]. *)
Theorem extract_city_country_code (w : str) (a a' : ascii) :
  city_word w = true -> is_alpha a = true -> is_alpha a' = true ->
  extract_city (py "weather in " ++ w ++ [","%char; " "%char; a; a']) = Some (w ++ py "," ++ [a; a']) /\
  extract_city (py "weather in " ++ w) = Some w.
Proof.
  intros Hw Ha Ha'.
  assert (Hal : forallb is_alpha w = true)
    by (unfold city_word in Hw; apply andb_prop in Hw as [Hw _]; apply andb_prop in Hw as [_ Hw]; exact Hw).
  split.
  - destruct (tail_cc a a' (rev w ++ " "%char :: rev (py "in") ++ rev (py "weather ")) [(1, w)] Ha Ha')
      as [s [l [Ht Hc]]].
    pose proof (search_city (py "weather ") (py "in") w _ s l skip_weather (in_at_in _) Hw
                  (or_intror (ex_intro _ _ eq_refl)) Ht) as Hs.
    unfold extract_city, city_patterns. cbn [city_by_patterns].
    change (py "weather in " ++ w ++ [","%char; " "%char; a; a'])
      with (py "weather " ++ py "in" ++ " "%char :: w ++ [","%char; " "%char; a; a']).
    rewrite Hs. unfold group_text. rewrite Hc. cbn [get_cap Nat.eqb Nat.ltb Nat.leb].
    rewrite strip_alpha by exact Hal. reflexivity.
  - pose proof (search_city (py "weather ") (py "in") w [] _ [] skip_weather (in_at_in _) Hw
                  (or_introl eq_refl) (tail_end _ _)) as Hs.
    unfold extract_city, city_patterns. cbn [city_by_patterns].
    replace (py "weather in " ++ w) with (py "weather " ++ py "in" ++ " "%char :: w ++ [])
      by (rewrite app_nil_r; reflexivity).
    rewrite Hs. unfold group_text. cbn [get_cap Nat.eqb Nat.ltb Nat.leb ms_caps].
    rewrite strip_alpha by exact Hal. reflexivity.
Qed.

Lemma extract_city_country_code_witness :
  (city_word (py "Paris") = true /\ is_alpha "F" = true /\ is_alpha "R" = true) /\
  extract_city (py "weather in Paris, FR") = Some (py "Paris,FR").
Proof.
  split; [repeat split|].
  exact (proj1 (extract_city_country_code (py "Paris") "F" "R" eq_refl eq_refl eq_refl)).
Defined.

(** The facts about the words before the city in ["<N> day forecast for <city>"]. *)
Lemma c2_prefix (n : nat) : 1 <= n <= 9 ->
  (forall x, search_at true city_pat1 [] ((digit n :: py " day forecast ") ++ x)
             = search_at true city_pat1 (rev (digit n :: py " day forecast ")) x) /\
  forallb (fun nd => negb (pcontains (nd ++ [sp_i]) (digit n :: py " day forecast for ")))
    [needle "compare"; sp_i :: needle "vs"; sp_i :: needle "versus"; needle "weather"] = true /\
  contains (py "forecast") (lower (digit n :: py " day forecast for ")) = true /\
  is_space (lower_c (digit n)) = false /\
  (forall y, match search false days_pat (lower (digit n :: py " day forecast for ") ++ y) with
             | Some m => int_of_digits (group_text 1 m) | None => 3%Z end = Z.of_nat n).
Proof.
  intros Hn.
  assert (E : n = 1 \/ n = 2 \/ n = 3 \/ n = 4 \/ n = 5 \/ n = 6 \/ n = 7 \/ n = 8 \/ n = 9) by lia.
  repeat destruct E as [->|E]; try subst n;
  (split; [intros x; reflexivity|]); (split; [vm_compute; reflexivity|]);
  (split; [vm_compute; reflexivity|]); (split; [vm_compute; reflexivity|]); intros y; simpl;
  replace (match length y with 0 => S (length y) | S l => length y - l end) with 1
    by (destruct (length y); lia); reflexivity.
Qed.

Lemma prefixb_app (p s y : str) : prefixb p s = true -> prefixb p (s ++ y) = true.
Proof.
  revert s. induction p as [|k p IH]; intros s H; [reflexivity|].
  destruct s as [|c s]; [discriminate|]. simpl in H |- *.
  apply andb_prop in H as [H1 H2]. rewrite H1. apply IH, H2.
Qed.

Lemma contains_app (n x y : str) : contains n x = true -> contains n (x ++ y) = true.
Proof.
  induction x as [|c x IH]; intros H.
  - destruct n; [destruct y; reflexivity|discriminate].
  - simpl in H |- *. apply orb_prop in H as [H|H].
    + change (c :: x ++ y) with ((c :: x) ++ y). rewrite (prefixb_app _ _ _ H). reflexivity.
    + rewrite IH by exact H. apply orb_true_r.
Qed.

Lemma city_word_alpha (w : str) : city_word w = true -> w <> [] /\ forallb is_alpha w = true.
Proof.
  unfold city_word. intros H. apply andb_prop in H as [H _]. apply andb_prop in H as [Hl Ha].
  split; [|exact Ha]. intros ->. discriminate.
Qed.

(** C2, counterexample: the classifier passes the day count through
    unchanged, so ["7 day forecast for London"] gives [days = 7], not
    [clamp(7, 1, 5) = 5]. *)
Lemma forecast_days_not_clamped :
  parse_intent (py "7 day forecast for London")
  = (py "forecast", [(py "city", AStr (py "London")); (py "days", AInt 7%Z)]) /\
  clamp_days 7 = 5%Z.
Proof. split; vm_compute; reflexivity. Qed.

(** C2 (amended): for ["<N> day forecast for <city>"] with 1 <= N <= 9 and
    <city> one word of ASCII letters in which no temporal word starts after
    the first letter, [_parse_intent] emits [forecast{city, days = N}]; the
    clamp to [1, 5] is applied afterwards by [get_forecast], which formats
    the provider's forecast with [clamp(N, 1, 5)] days. *)
Theorem forecast_days_unclamped (n : nat) (w : str) :
  1 <= n <= 9 -> city_word w = true ->
  parse_intent (digit n :: py " day forecast for " ++ w)
  = (py "forecast", [(py "city", AStr w); (py "days", AInt (Z.of_nat n))]) /\
  (forall c data, wc_get_forecast c w = Ret data ->
     get_forecast c w (Z.of_nat n) = Ret (wc_format_forecast c data (clamp_days (Z.of_nat n)))).
Proof.
  intros Hn Hw. destruct (c2_prefix n Hn) as (Hskip & Hcmp & Hfc & Hd0 & Hdays).
  destruct (city_word_alpha w Hw) as [Hne Hal].
  assert (Hsp : Forall (fun c => sp_i c = false) w).
  { apply Forall_forall. intros c Hc. apply (alpha_facts c), (proj1 (forallb_forall _ _) Hal), Hc. }
  split; [|intros c data Hd; unfold get_forecast; rewrite Hd; reflexivity].
  assert (Hx : extract_city (digit n :: py " day forecast for " ++ w) = Some w).
  { pose proof (search_city (digit n :: py " day forecast ") (py "for") w [] _ []
                  Hskip (in_at_for _) Hw (or_introl eq_refl) (tail_end _ _)) as Hs.
    unfold extract_city, city_patterns. cbn [city_by_patterns].
    replace (digit n :: py " day forecast for " ++ w)
      with ((digit n :: py " day forecast ") ++ py "for" ++ " "%char :: w ++ [])
      by (rewrite app_nil_r; reflexivity).
    rewrite Hs. unfold group_text. cbn [get_cap Nat.eqb Nat.ltb Nat.leb ms_caps].
    rewrite strip_alpha by exact Hal. reflexivity. }
  assert (Hlq : lower (digit n :: py " day forecast for " ++ w)
                = lower (digit n :: py " day forecast for ") ++ lower w)
    by (unfold lower; rewrite <- map_app; reflexivity).
  assert (Hst : strip (lower (digit n :: py " day forecast for " ++ w))
                = lower (digit n :: py " day forecast for " ++ w)).
  { unfold strip.
    rewrite (lstrip_head (lower (digit n :: py " day forecast for " ++ w)))
      by (intros c s' E; unfold lower in E; cbn [map] in E; injection E as <- _; exact Hd0).
    rewrite (lstrip_head (rev (lower (digit n :: py " day forecast for " ++ w)))); [apply rev_involutive|].
    intros c s' E. unfold lower in E. rewrite <- map_rev in E.
    change (digit n :: py " day forecast for " ++ w) with ((digit n :: py " day forecast for ") ++ w) in E.
    rewrite rev_app_distr in E.
    destruct (rev w) as [|d r] eqn:Er.
    { exfalso. apply Hne. rewrite <- (rev_involutive w), Er. reflexivity. }
    simpl in E. injection E as <- _. apply (alpha_facts d).
    apply (proj1 (forallb_forall _ _) Hal), in_rev. rewrite Er. left. reflexivity. }
  assert (Hnc : first_compare compare_patterns (digit n :: py " day forecast for " ++ w) = None).
  { apply no_compare. unfold cmp_needles.
    change (digit n :: py " day forecast for " ++ w) with ((digit n :: py " day forecast for ") ++ w).
    cbn [forallb]. rewrite !(pcontains_app_avoid _ sp_i _ w Hsp). exact Hcmp. }
  unfold parse_intent. cbv zeta. rewrite Hst, Hnc. cbv beta iota.
  unfold keyword_rule at 1.
  replace (any_in forecast_words (lower (digit n :: py " day forecast for " ++ w))) with true.
  2:{ symmetry. unfold any_in, forecast_words. cbn [existsb]. rewrite Hlq, (contains_app _ _ _ Hfc). reflexivity. }
  rewrite Hx. unfold city_truthy. destruct w as [|c0 w0]; [congruence|].
  cbn [truthy str_eqb negb]. rewrite Hlq, Hdays. reflexivity.
Qed.

Lemma forecast_days_unclamped_witness :
  (1 <= 7 <= 9 /\ city_word (py "London") = true) /\
  parse_intent (py "7 day forecast for London")
  = (py "forecast", [(py "city", AStr (py "London")); (py "days", AInt 7%Z)]).
Proof.
  split; [split; [lia | reflexivity]|].
  refine (proj1 (forecast_days_unclamped 7 (py "London") _ _)); [lia | reflexivity].
Defined.

End Proofs.

(* ================================================================== *)
(** * Further properties of the code *)

Module Extras.

Import Agent Executor Handler SpecSide Analysis Proofs Main Samples.

(** *** [verify_api_key] *)

Lemma replace_none (old new s : str) :
  contains old s = false -> replace s old new = s.
Proof.
  unfold replace. induction s as [|c s IH]; intros H; [reflexivity|].
  simpl in H. apply orb_false_iff in H as [H1 H2]. simpl.
  rewrite H1, (IH H2). reflexivity.
Qed.

Lemma replace_skip (old new x s : str) :
  replace_aux old new (length x) (x ++ s) = replace_aux old new 0 s.
Proof. induction x as [|c x IH]; [reflexivity|]. exact IH. Qed.

Lemma prefixb_self (p s : str) : prefixb p (p ++ s) = true.
Proof. induction p as [|a p IH]; [reflexivity|]. simpl. rewrite Ascii.eqb_refl. exact IH. Qed.

Lemma replace_head (old new s : str) :
  old <> [] -> replace (old ++ s) old new = new ++ replace s old new.
Proof.
  intros Hne. destruct old as [|o os]; [contradiction|]. unfold replace.
  assert (P : prefixb (o :: os) (o :: os ++ s) = true) by exact (prefixb_self (o :: os) s).
  cbn [app replace_aux]. rewrite P. f_equal.
  replace (length (o :: os) - 1) with (length os) by (simpl; lia). apply replace_skip.
Qed.

Lemma str_eqb_refl (s : str) : str_eqb s s = true.
Proof. induction s as [|a s IH]; simpl; [reflexivity|]. rewrite Ascii.eqb_refl. exact IH. Qed.

Lemma str_eqb_len (a b : str) : str_eqb a b = true -> length a = length b.
Proof.
  revert b; induction a as [|x a IH]; intros [|y b]; simpl; try easy.
  rewrite andb_true_iff. intros [_ H]. f_equal. auto.
Qed.

(** When a key is configured and the request carries a non-empty
    [x-sn-apikey] header, that header alone decides: the request passes
    exactly when its value equals the key, whatever [x-api-key] and
    [Authorization] hold. *)
Theorem verify_api_key_sn_first (K v : str) (hs : headers) :
  truthy K = true -> truthy v = true -> header_get hs (py "x-sn-apikey") = Some v ->
  verify_api_key K hs = str_eqb v K.
Proof.
  intros HK Hv H. unfold verify_api_key. rewrite HK, H. simpl. rewrite Hv. reflexivity.
Qed.

Lemma verify_api_key_sn_first_witness :
  verify_api_key (py "s3cret")
    [(py "X-SN-ApiKey", py "s3cret"); (py "Authorization", py "Bearer wrong")] = true.
Proof.
  rewrite (verify_api_key_sn_first (py "s3cret") (py "s3cret")); reflexivity.
Defined.

(** Without [x-sn-apikey] and [x-api-key] headers, the [Authorization]
    header is compared after every ["Bearer "] and then every ["ApiKey "]
    is removed: for a configured key that contains neither, the values
    ["Bearer <key>"], ["ApiKey <key>"] and ["<key>"] pass, and the scheme
    is case-sensitive, so ["bearer <key>"] is refused. *)
Theorem verify_api_key_authorization (K : str) (hs : headers) :
  truthy K = true ->
  contains (py "Bearer ") K = false -> contains (py "ApiKey ") K = false ->
  header_get hs (py "x-sn-apikey") = None -> header_get hs (py "x-api-key") = None ->
  (header_get hs (py "Authorization") = Some (py "Bearer " ++ K) \/
   header_get hs (py "Authorization") = Some (py "ApiKey " ++ K) \/
   header_get hs (py "Authorization") = Some K ->
   verify_api_key K hs = true) /\
  (header_get hs (py "Authorization") = Some (py "bearer " ++ K) ->
   verify_api_key K hs = false).
Proof.
  intros HK HB HA Hsn Hx. unfold verify_api_key. rewrite HK, Hsn, Hx. cbn [negb or_else].
  split.
  - intros [H|[H|H]]; rewrite H.
    + rewrite replace_head by discriminate. rewrite app_nil_l.
      rewrite (replace_none (py "Bearer ") [] K HB), (replace_none (py "ApiKey ") [] K HA).
      apply str_eqb_refl.
    + replace (replace (py "ApiKey " ++ K) (py "Bearer ") [])
        with (py "ApiKey " ++ replace K (py "Bearer ") []) by reflexivity.
      rewrite replace_head by discriminate. rewrite app_nil_l.
      rewrite (replace_none (py "Bearer ") [] K HB), (replace_none (py "ApiKey ") [] K HA).
      apply str_eqb_refl.
    + rewrite (replace_none (py "Bearer ") [] K HB), (replace_none (py "ApiKey ") [] K HA).
      apply str_eqb_refl.
  - intros H. rewrite H.
    replace (replace (py "bearer " ++ K) (py "Bearer ") [])
      with (py "bearer " ++ replace K (py "Bearer ") []) by reflexivity.
    replace (replace (py "bearer " ++ replace K (py "Bearer ") []) (py "ApiKey ") [])
      with (py "bearer " ++ replace (replace K (py "Bearer ") []) (py "ApiKey ") [])
      by reflexivity.
    rewrite (replace_none (py "Bearer ") [] K HB), (replace_none (py "ApiKey ") [] K HA).
    destruct (str_eqb _ K) eqn:E; [|reflexivity].
    apply str_eqb_len in E. rewrite length_app in E. simpl in E. lia.
Qed.

Lemma verify_api_key_authorization_witness :
  verify_api_key (py "s3cret") [(py "Authorization", py "Bearer s3cret")] = true /\
  verify_api_key (py "s3cret") [(py "Authorization", py "bearer s3cret")] = false.
Proof.
  split.
  - apply (proj1 (verify_api_key_authorization (py "s3cret")
                    [(py "Authorization", py "Bearer s3cret")]
                    eq_refl eq_refl eq_refl eq_refl eq_refl)).
    left. reflexivity.
  - apply (proj2 (verify_api_key_authorization (py "s3cret")
                    [(py "Authorization", py "bearer s3cret")]
                    eq_refl eq_refl eq_refl eq_refl eq_refl)).
    reflexivity.
Defined.

(** *** [execute] and the JSON-RPC handlers *)

Lemma enqueued_app (t t' : list effect) : enqueued (t ++ t') = enqueued t ++ enqueued t'.
Proof. induction t as [|[] t IH]; simpl; rewrite ?IH; reflexivity. Qed.

(** The dispatch step returns a response and enqueues nothing itself. *)
Lemma dispatch_quiet (ag : agent_ops) (q : str) (it : intent) :
  exists r, snd (dispatch ag q it) = Ret r /\ enqueued (fst (dispatch ag q it)) = [].
Proof.
  destruct it as [skill params]. unfold dispatch, call, lift, emit.
  repeat match goal with |- context [if ?b then _ else _] => destruct b end;
  repeat match goal with
         | |- context [match ?o with Ret _ => _ | Raise _ => _ end] =>
             let E := fresh in destruct o eqn:E
         | _ => progress cbn [mbind mtry mret fst snd app enqueued]
         end; eauto.
Qed.

Lemma execute_str (ag : agent_ops) (ctx : context) (s : str) :
  extract_query ctx = Ret (VStr s) ->
  exists r, snd (dispatch ag s (parse_intent s)) = Ret r /\ snd (execute ag ctx) = Ret tt /\
  enqueued (fst (execute ag ctx)) = [if str_eqb (strip s) [] then help_message else r].
Proof.
  intros Hq. destruct (dispatch_quiet ag s (parse_intent s)) as [r [Hr Hn]].
  exists r. split; [exact Hr|]. unfold execute. rewrite Hq. cbn [lift mbind emit fst snd app].
  destruct s as [|a s'].
  - split; reflexivity.
  - cbn [vtruthy negb truthy str_eqb strip_val lift mbind].
    destruct (str_eqb (strip (a :: s')) []) eqn:E; [split; reflexivity|].
    destruct (dispatch ag (a :: s') (parse_intent (a :: s'))) as [t o].
    cbn [fst snd] in Hr, Hn. subst o. cbn [mbind emit fst snd app].
    split; [reflexivity|]. cbn [enqueued]. rewrite enqueued_app, Hn. reflexivity.
Qed.

Lemma events_enqueued (t : list effect) : events t = map new_agent_text_message (enqueued t).
Proof. induction t as [|[] t IH]; simpl; rewrite ?IH; reflexivity. Qed.

Lemma response_text_single (t : list effect) (r : str) :
  enqueued t = [r] -> response_text_of (events t) [] = r.
Proof.
  intros H. rewrite events_enqueued, H. simpl. destruct (truthy r) eqn:E; rewrite ?E; reflexivity.
Qed.







Lemma hex_digit_ascii (n : nat) : is_ascii (hex_digit n) = true.
Proof.
  unfold hex_digit.
  destruct (nth_in_or_default n (py "0123456789abcdef") "0"%char) as [H | E]; [|rewrite E]; [|reflexivity].
  assert (A : forallb is_ascii (py "0123456789abcdef") = true) by reflexivity.
  rewrite forallb_forall in A. exact (A _ H).
Qed.

(** CPython's [UnicodeEncodeError] message is plain ASCII. *)
Lemma encode_error_clean (body : str) : has_surrogate (exc_msg (encode_error body)) = false.
Proof.
  apply has_ascii. unfold encode_error. cbn [exc_msg].
  destruct (first_surrogate body 0) as [[pos rest]|]; [|reflexivity]. cbv zeta.
  destruct (_ =? 1); unfold nat_decimal, hex4; rewrite ?forallb_app; cbn [map forallb];
    rewrite ?z_decimal_ascii, ?hex_digit_ascii; reflexivity.
Qed.

Lemma json_response_ok (x : json) : ok_out (json_response x).
Proof.
  unfold json_response. destruct (finite x) eqn:Ef; [|reflexivity].
  cbv zeta. destruct (has_surrogate (dumps x)) eqn:Eh.
  - apply encode_error_clean.
  - cbn [ok_out]. rewrite renders_iff, Ef, Eh. reflexivity.
Qed.

Lemma renders_ret (x : json) : renders x = true -> json_response x = Ret x.
Proof.
  unfold renders. destruct (json_response x) as [a|e] eqn:E; [|discriminate].
  intros _. destruct (json_response_ret _ _ E) as [-> _]. reflexivity.
Qed.

Lemma json_response_renders (x : json) :
  renders x = true -> exists j, json_response x = Ret j /\ renders j = true.
Proof. intros H. exists x. split; [apply renders_ret, H | exact H]. Qed.

(** [.get] on a value that is not a dict raises an ASCII message. *)
Lemma jget_clean (j : json) (k : string) (d : json) (e : exc) :
  jget j k d = Raise e -> has_surrogate (exc_msg e) = false.
Proof.
  unfold jget. intros H.
  destruct j as [| | [] | | |]; try discriminate; injection H as <-; reflexivity.
Qed.

Lemma request_handler_exc_ok (jid : json) (e : exc) :
  renders jid = true -> has_surrogate (exc_msg e) = false ->
  exists j, request_handler_exc jid e = Ret j /\ renders j = true.
Proof.
  intros Hj He. unfold request_handler_exc, error_response.
  destruct (is_decode_error e); apply json_response_renders; rewrite error_response_renders;
    rewrite has_app_ascii_l, He by reflexivity; rewrite ?Hj; reflexivity.
Qed.

Lemma obind_ret {A B} (o : outcome A) (k : A -> outcome B) (b : B) :
  obind o k = Ret b -> exists a, k a = Ret b.
Proof. destruct o; simpl; [eauto | discriminate]. Qed.

(** Follow a successful handler outcome back to the [JSONResponse] that
    produced it. *)
Ltac ret_trace H :=
  repeat match type of H with
         | obind _ _ = Ret _ => apply obind_ret in H as [? H]
         | match ?p with (_, _) => _ end = Ret _ => destruct p
         end.

Lemma handle_tasks_send_ok (run : context -> M unit) (u : nat -> str) (jid params : json) :
  ok_out (handle_tasks_send run u jid params).
Proof.
  unfold handle_tasks_send.
  match goal with |- ok_out (ocatch ?X _) => destruct X as [a|e] eqn:E end; cbn [ocatch].
  - ret_trace E. destruct (json_response_ret _ _ E) as [-> Hr]. exact Hr.
  - apply json_response_ok.
Qed.

Lemma handle_message_send_ok (run : context -> M unit) (u : nat -> str) (jid params : json) :
  ok_out (handle_message_send run u jid params).
Proof.
  unfold handle_message_send.
  destruct (jget params "contextId" JNull) as [c|e] eqn:E1; cbn [obind];
    [|exact (jget_clean _ _ _ _ E1)].
  destruct (jget params "message" (JObj [])) as [m|e] eqn:E2; cbn [obind];
    [|exact (jget_clean _ _ _ _ E2)].
  apply handle_tasks_send_ok.
Qed.

Lemma handle_tasks_get_ok (jid params : json) : ok_out (handle_tasks_get jid params).
Proof.
  unfold handle_tasks_get.
  destruct (jget params "id" JNull) eqn:E; cbn [obind];
    [apply json_response_ok | exact (jget_clean _ _ _ _ E)].
Qed.

Lemma handle_tasks_cancel_ok (jid params : json) : ok_out (handle_tasks_cancel jid params).
Proof.
  unfold handle_tasks_cancel.
  destruct (jget params "id" JNull) eqn:E; cbn [obind];
    [apply json_response_ok | exact (jget_clean _ _ _ _ E)].
Qed.

(** [handle_request] never raises and always answers a response
    [JSONResponse] renders (valid JSON with no [NaN] or [Infinity], and
    UTF-8 text), for any executor and any body, as long as the request's own
    [id] renders and the message of a failed [json.loads] holds no lone
    surrogate: every other failure, a body that is not an object, bad
    [params], a failing executor, an unrenderable task id, or a method name
    with a lone surrogate, becomes a JSON-RPC error response. *)
Theorem handle_request_json_compliant (run : context -> M unit) (u : nat -> str)
        (loaded : outcome json) :
  (forall e, loaded = Raise e -> has_surrogate (exc_msg e) = false) ->
  (forall data jid, loaded = Ret data -> jget data "id" JNull = Ret jid -> renders jid = true) ->
  exists j, handle_request run u loaded = Ret j /\ renders j = true.
Proof.
  intros Hload Hid. unfold handle_request.
  destruct loaded as [data|e];
    [|apply request_handler_exc_ok; [reflexivity | exact (Hload e eq_refl)]].
  destruct (jget data "id" JNull) as [jid|e] eqn:Ej;
    [|apply request_handler_exc_ok; [reflexivity | exact (jget_clean _ _ _ _ Ej)]].
  specialize (Hid data jid eq_refl Ej).
  match goal with |- exists j, ocatch ?m _ = _ /\ _ =>
    assert (Hm : ok_out m); [|destruct m as [j|e]; cbn [ocatch]] end.
  - destruct (jget data "method" (jstr "")) as [method|e] eqn:E1; cbn [obind];
      [|exact (jget_clean _ _ _ _ E1)].
    destruct (jget data "params" (JObj [])) as [params|e] eqn:E2; cbn [obind];
      [|exact (jget_clean _ _ _ _ E2)].
    repeat match goal with |- context [if method_is method ?n then _ else _] =>
      destruct (method_is method n) end;
      first [ apply handle_tasks_send_ok | apply handle_message_send_ok
            | apply handle_tasks_get_ok | apply handle_tasks_cancel_ok
            | apply json_response_ok ].
  - exists j. split; [reflexivity | exact Hm].
  - apply request_handler_exc_ok; [exact Hid | exact Hm].
Qed.

Lemma handle_request_json_compliant_witness :
  exists j, handle_request (execute ok_agent) uuid_fixed
              (Ret (JObj [(py "id", JNum (NInt 7));
                          (py "method", JStr [ascii_of_nat 237; ascii_of_nat 160; ascii_of_nat 128]);
                          (py "params", JObj [(py "id", JNum NNaN)])])) = Ret j /\
            renders j = true.
Proof.
  apply handle_request_json_compliant; [discriminate|].
  intros d jid E1 E2. injection E1 as <-. injection E2 as <-. reflexivity.
Defined.

(** Any [result] a [message/send] answer carries is the one
    [_handle_tasks_send] builds for the rewritten params. *)
Lemma message_send_result (run : context -> M unit) (u : nat -> str) (jid : json)
      (l : list (str * json)) (k : string) (x : json) :
  result_field k (handle_message_send run u jid (JObj l)) = Some x ->
  exists text, result_field k (Ret (result_response jid (JStr (u 0))
    (match assoc (py "contextId") l with
     | Some v => if jtruthy v then v else JStr (u 2)
     | None => JStr (u 2)
     end) text)) = Some x.
Proof.
  unfold handle_message_send, handle_tasks_send. cbn [jget obind].
  match goal with |- result_field _ (ocatch ?X _) = _ -> _ => destruct X as [a|e] eqn:E end;
    cbn [ocatch].
  - intros H. ret_trace E. apply json_response_ret in E as [-> _].
    eexists. rewrite <- H. f_equal.
    destruct (assoc (py "contextId") l); reflexivity.
  - unfold error_response, json_response.
    destruct (finite _); [cbv zeta; destruct (has_surrogate _)|]; discriminate.
Qed.

(** [message/send] reports a task id of its own, the first [uuid4()] of
    the request, whatever [id] the client put in [params], and the
    client's [contextId] as [sessionId] when it is truthy (a second fresh
    uuid otherwise), for any executor: whenever the answer has a [result],
    these are its [id] and [sessionId]. *)
Theorem message_send_fresh_ids (run : context -> M unit) (u : nat -> str) (jid : json)
        (l : list (str * json)) :
  (forall x, result_field "id" (handle_message_send run u jid (JObj l)) = Some x ->
             x = JStr (u 0)) /\
  (forall x, result_field "sessionId" (handle_message_send run u jid (JObj l)) = Some x ->
             x = match assoc (py "contextId") l with
                 | Some v => if jtruthy v then v else JStr (u 2)
                 | None => JStr (u 2)
                 end).
Proof.
  split; intros x H; apply message_send_result in H as [text H];
    injection H as <-; reflexivity.
Qed.

Lemma message_send_fresh_ids_witness :
  exists x,
  result_field "id"
    (handle_message_send (fun _ => mret tt) uuid_fixed (JNum (NInt 1))
       (JObj [(py "id", jstr "client-7"); (py "contextId", jstr "ctx-1");
              (py "message", JObj [(py "parts", JArr [text_json (py "hi")])])])) = Some x /\
  x = JStr (uuid_fixed 0).
Proof.
  eexists. split; [vm_compute; reflexivity|].
  apply (proj1 (message_send_fresh_ids (fun _ => mret tt) uuid_fixed (JNum (NInt 1))
                  [(py "id", jstr "client-7"); (py "contextId", jstr "ctx-1");
                   (py "message", JObj [(py "parts", JArr [text_json (py "hi")])])])).
  vm_compute. reflexivity.
Defined.

(** *** [_parse_intent] and [_extract_city] *)



Lemma lstrip_incl (s : str) (x : ascii) : In x (lstrip s) -> In x s.
Proof.
  induction s as [|c s IH]; simpl; [easy|].
  destruct (is_space c); [intros H; right; auto | easy].
Qed.

Lemma strip_incl (s : str) (x : ascii) : In x (strip s) -> In x s.
Proof. unfold strip. intros H. apply in_rev, lstrip_incl, in_rev, lstrip_incl in H. exact H. Qed.

Lemma lower_digit (s : str) (x : ascii) : In x (lower s) -> is_digit x = true -> In x s.
Proof.
  unfold lower. intros H Hd. apply in_map_iff in H as [y [<- Hy]].
  unfold lower_c in *. destruct (is_upper y) eqn:Eu; [|exact Hy].
  exfalso. unfold is_upper, is_digit, in_range, code in *.
  apply andb_true_iff in Eu as [E1 E2]. apply Nat.leb_le in E1, E2.
  rewrite nat_ascii_embedding in Hd by lia.
  apply andb_true_iff in Hd as [E3 E4]. apply Nat.leb_le in E3, E4. lia.
Qed.

(** [(\d+)\s*day] needs a digit. *)
Lemma no_digit_days (s : str) :
  forallb (fun x => negb (is_digit x)) s = true -> search false days_pat s = None.
Proof.
  intros H. destruct (search false days_pat s) as [m|] eqn:E; [|reflexivity]. exfalso.
  destruct (search_at_lang _ _ _ _ _ E) as [a [u [y [-> Hu]]]].
  unfold days_pat in Hu. cbn [seqs] in Hu.
  apply lang_seq_inv in Hu as [u1 [u2 [-> [H1 _]]]].
  inversion H1 as [| | | | | | |n r u0 H3| | |]; subst.
  inversion H3 as [| | | | | |p m0 g u0 Hlen Hall| | | |]; subst.
  destruct u1 as [|d u1]; [simpl in Hlen; lia|].
  inversion Hall as [|? ? Hd]; subst. unfold cmatch in Hd. rewrite orb_false_r in Hd.
  rewrite forallb_forall in H.
  assert (Hin : In d (a ++ ((d :: u1) ++ u2) ++ y))
    by (apply in_or_app; right; simpl; left; reflexivity).
  specialize (H d Hin). rewrite Hd in H. discriminate H.
Qed.



(** When no city pattern matches, the city [_extract_city] returns is one
    of the capitalised words [re.findall] found, and never one of the skip
    words, in any letter case. *)
Theorem extract_city_fallback (q w : str) :
  city_by_patterns city_patterns q = None -> extract_city q = Some w ->
  In w (findall false cap_words_pat q) /\ existsb (str_eqb (lower w)) skip_words = false.
Proof.
  intros Hp. unfold extract_city. rewrite Hp.
  induction (findall false cap_words_pat q) as [|x ws IH]; cbn [first_not_skipped]; [discriminate|].
  destruct (existsb (str_eqb (lower x)) skip_words) eqn:E.
  - intros H. destruct (IH H) as [H1 H2]. split; [right; exact H1 | exact H2].
  - intros H. injection H as <-. split; [left; reflexivity | exact E].
Qed.

Lemma extract_city_fallback_witness :
  extract_city (py "Tell me about Berlin") = Some (py "Berlin") /\
  In (py "Berlin") (findall false cap_words_pat (py "Tell me about Berlin")).
Proof.
  refine (conj eq_refl (proj1 (extract_city_fallback (py "Tell me about Berlin") (py "Berlin") _ _)));
    vm_compute; reflexivity.
Defined.

(** *** The [query] and [get_weather_summary] skills *)

Lemma lstrip_suffix (s : str) : exists p, s = p ++ lstrip s.
Proof.
  induction s as [|c s [p IH]]; [exists []; reflexivity|]. simpl.
  destruct (is_space c); [exists (c :: p); simpl; f_equal; exact IH | exists []; reflexivity].
Qed.

Lemma lstrip_no_space (s : str) (c : ascii) (s' : str) : lstrip s = c :: s' -> is_space c = false.
Proof.
  induction s as [|x s IH]; simpl; [discriminate|].
  destruct (is_space x) eqn:E; [exact IH | intros H; injection H as <- _; exact E].
Qed.

Lemma lstrip_idem (s : str) : lstrip (lstrip s) = lstrip s.
Proof. apply lstrip_head. intros c s' H. exact (lstrip_no_space s c s' H). Qed.

Lemma strip_idem (t : str) : strip (strip t) = strip t.
Proof.
  unfold strip at 2. set (a := lstrip t). set (b := lstrip (rev a)).
  assert (Hb : lstrip (rev b) = rev b).
  { apply lstrip_head. intros c s' H.
    destruct (lstrip_suffix (rev a)) as [p Hp]. fold b in Hp.
    apply (f_equal (@rev ascii)) in Hp. rewrite rev_involutive, rev_app_distr, H in Hp.
    apply (lstrip_no_space t c (s' ++ rev p)). fold a. rewrite Hp. reflexivity. }
  unfold strip. rewrite Hb, rev_involutive. unfold b. rewrite lstrip_idem. reflexivity.
Qed.

Lemma lstrip_snoc (l : str) (a : ascii) : is_space a = false -> lstrip (l ++ [a]) = lstrip l ++ [a].
Proof.
  intros Ha. induction l as [|x l IH]; simpl; [rewrite Ha; reflexivity|].
  destruct (is_space x); [exact IH | reflexivity].
Qed.

Lemma strip_head (a : ascii) (s : str) : is_space a = false -> exists r, strip (a :: s) = a :: r.
Proof.
  intros Ha. unfold strip. cbn [lstrip]. rewrite Ha. cbn [rev]. rewrite lstrip_snoc by exact Ha.
  rewrite rev_app_distr. eexists. reflexivity.
Qed.

(** When the language model answers the city question with "NONE", in any
    letter case and with any surrounding whitespace, [query] asks the
    weather service nothing and answers from the question with the context
    "No specific city mentioned". *)
Theorem query_none_no_lookup (c : caps) (q t : str) :
  ai_generate_text c (city_prompt q) = Ret (Some t) ->
  str_eqb (upper (strip t)) (py "NONE") = true ->
  query c q = Ret (ai_analyze c (answer_prompt q (py "No specific city mentioned"))).
Proof.
  intros Ht Hn. unfold query.
  assert (Ha : ai_analyze c (city_prompt q) = strip t)
    by (unfold ai_analyze; rewrite Ht; reflexivity).
  rewrite Ha, strip_idem, Hn. reflexivity.
Qed.

Lemma query_none_no_lookup_witness :
  query caps_none (py "Will it rain?") =
    Ret (ai_analyze caps_none (answer_prompt (py "Will it rain?") (py "No specific city mentioned"))).
Proof. apply (query_none_no_lookup caps_none _ (py " none" ++ [ascii_of_nat 10])); reflexivity. Defined.

(** When the language model fails on the city question, [_ai_analyze]'s
    degraded text "AI analysis unavailable: <message>" is taken for the
    city: [query] looks up the current weather of a city of that name and
    passes its data, or "Weather data unavailable", to the second prompt. *)
Theorem query_ai_down_city (c : caps) (q : str) (e : exc) :
  ai_generate_text c (city_prompt q) = Raise e ->
  let city := strip (py "AI analysis unavailable: " ++ exc_msg e) in
  query c q =
    Ret (ai_analyze c (answer_prompt q
           (match wc_get_current_weather c city with
            | Ret weather_data => json_dumps c weather_data
            | Raise _ => py "Weather data unavailable"
            end))).
Proof.
  intros He city. unfold query.
  assert (Ha : ai_analyze c (city_prompt q) = py "AI analysis unavailable: " ++ exc_msg e)
    by (unfold ai_analyze; rewrite He; reflexivity).
  rewrite Ha.
  destruct (strip_head "A"%char (py "I analysis unavailable: " ++ exc_msg e) eq_refl) as [r Hr].
  change (py "AI analysis unavailable: " ++ exc_msg e)
    with ("A"%char :: py "I analysis unavailable: " ++ exc_msg e) in city |- *.
  unfold city. rewrite Hr. reflexivity.
Qed.

Lemma query_ai_down_city_witness :
  query caps_down (py "Is it windy?") =
    Ret (ai_analyze caps_down (answer_prompt (py "Is it windy?") (py "Weather data unavailable"))).
Proof. rewrite (query_ai_down_city caps_down (py "Is it windy?") ai_down eq_refl). reflexivity. Defined.

(** The air-quality part of the summary is not optional on failure: with
    the current weather and the forecast fetched, a failing geocoding call,
    or a failing air-pollution call for a geocoded city, turns the whole
    summary into the error text. *)
Theorem summary_air_quality_failure (c : caps) (city : str) (cur fc : json) (e : exc) :
  wc_get_current_weather c city = Ret cur -> wc_get_forecast c city = Ret fc ->
  (wc_geocode c city = Raise e \/
   exists loc locs, wc_geocode c city = Ret (JArr (JObj loc :: locs)) /\
                    forall lat lon, wc_get_air_quality c lat lon = Raise e) ->
  get_weather_summary c city =
    Ret (agent_mark ++ py " Error getting weather summary for " ++ city ++ py ": " ++ exc_msg e).
Proof.
  intros Hc Hf Hg. unfold get_weather_summary. rewrite Hc, Hf. cbn [obind].
  destruct Hg as [Hg | [loc [locs [Hg Ha]]]]; rewrite Hg; [reflexivity|].
  cbn [obind jtruthy jindex0 jget]. rewrite Ha. reflexivity.
Qed.

Lemma summary_air_quality_failure_witness :
  get_weather_summary caps_aq_down (py "Paris") =
    Ret (agent_mark ++ py " Error getting weather summary for " ++ py "Paris" ++ py ": " ++
         exc_msg weather_down).
Proof.
  apply (summary_air_quality_failure caps_aq_down (py "Paris")
           (JObj [(py "main", JObj [(py "temp", JNum (NInt 18))])])
           (JObj [(py "list", JArr [])])); [reflexivity | reflexivity |].
  right. do 2 eexists. split; [reflexivity | intros; reflexivity].
Defined.

End Extras.
